(** * Missing-slice interpolation of a (time, x, y) volume

    A shallow embedding of [interpolate_missing_data_3d_spline]
    (src/spline_interpolation.py) and of the parts of NumPy and SciPy that it
    calls, followed by the properties of the function.

    - Cells are IEEE binary64 numbers (the stacked volumes of this
      repository are built with [np.full(..., np.nan)], hence float64):
      Rocq's primitive [float].
    - An [ndarray] is a shape and a reference to a buffer in a heap, so that
      [np.copy] allocates and the writes of the loop are seen to land in the
      copy only.
    - Python code is a function of the [world] (heap and standard output)
      that returns the new world and either a value or a raised exception.
    - The numerical core of [scipy.interpolate.interp1d] (LAPACK solve of the
      not-a-knot B-spline system and its evaluation) is a parameter of the
      development: every theorem holds for every such core.  What [interp1d]
      checks before and around that core is modelled.
    - The stacking scripts (src/create_stack_array_of_monthly_data.py and
      src/separate_stack_arrays_for_all_months.py) are embedded too.  They
      see the directory through rasterio and [os.path.exists]: what a path
      reads as, and whether it exists, are functions given to the
      development, and the theorems hold for every directory. *)

From Stdlib Require Import ZArith Lia PrimFloat Uint63.
From stdpp Require Import base list strings pretty.

(** ** Exceptions, results, the world *)

Inductive exn : Set :=
| IndexError
| ValueError.

Inductive result (A : Type) : Type :=
| Ok (a : A)
| Raise (e : exn).
Arguments Ok {A} a.
Arguments Raise {A} e.

Definition is_ok {A} (r : result A) : bool :=
  match r with Ok _ => true | Raise _ => false end.

Definition result_map {A B} (f : A -> B) (r : result A) : result B :=
  match r with Ok a => Ok (f a) | Raise e => Raise e end.

Definition loc := nat.

Record world : Type := World {
  heap : list (list float);   (* one buffer per allocated array *)
  stdout : list string        (* the lines printed so far *)
}.

Definition py (A : Type) : Type := world -> world * result A.

Definition ret {A} (a : A) : py A := fun w => (w, Ok a).

Definition bind {A B} (c : py A) (k : A -> py B) : py B :=
  fun w => match c w with
           | (w', Ok a) => k a w'
           | (w', Raise e) => (w', Raise e)
           end.

Definition lift {A} (r : result A) : py A := fun w => (w, r).

Definition print (line : string) : py unit :=
  fun w => (World (heap w) (stdout w ++ [line]), Ok tt).

Declare Scope py_scope.
Delimit Scope py_scope with py.
Notation "x <- c ;; k" := (bind c (fun x => k))
  (at level 100, c at next level, k at level 200, right associativity) : py_scope.
Notation "c ;; k" := (bind c (fun _ => k))
  (at level 100, k at level 200, right associativity) : py_scope.

(** [for x in xs: body(x)] *)
Fixpoint for_each {A} (xs : list A) (body : A -> py unit) : py unit :=
  match xs with
  | [] => ret tt
  | x :: xs' => (body x ;; for_each xs' body)%py
  end.

(** ** NumPy arrays *)

(** A C-contiguous three-dimensional float64 array: its shape and the
    buffer that holds its cells. *)
Record ndarray : Set := NdArray {
  base : loc;
  time_steps : nat;
  x_dim : nat;
  y_dim : nat
}.

Definition shape (a : ndarray) : nat * nat * nat :=
  (time_steps a, x_dim a, y_dim a).

Definition size (a : ndarray) : nat := time_steps a * x_dim a * y_dim a.

Definition offset (a : ndarray) (t x y : nat) : nat :=
  (t * x_dim a + x) * y_dim a + y.

Definition buffer (w : world) (a : ndarray) : list float :=
  default [] (heap w !! base a).

(** [a[t, x, y]] for indices inside the shape. *)
Definition getitem (w : world) (a : ndarray) (t x y : nat) : float :=
  default nan (buffer w a !! offset a t x y).

(** The array is allocated and its buffer has the size of its shape. *)
Definition array_wf (w : world) (a : ndarray) : Prop :=
  exists buf, heap w !! base a = Some buf /\ length buf = size a.

(** Python's index normalisation on an axis of length [n]: [-n <= i < 0]
    counts from the end, anything outside [-n, n) is an [IndexError]. *)
Definition normalize_index (n : nat) (i : Z) : option nat :=
  if ((0 <=? i) && (i <? Z.of_nat n))%Z then Some (Z.to_nat i)
  else if ((- Z.of_nat n <=? i) && (i <? 0))%Z then Some (Z.to_nat (Z.of_nat n + i))
  else None.

(** A Python int that NumPy holds as an int64 scalar.  [missing_index] is
    meant in this range: beyond it NumPy and SciPy fail on the conversion of
    the integer itself. *)
Definition fits_int64 (i : Z) : Prop := (- 2 ^ 63 <= i < 2 ^ 63)%Z.

(** [np.copy(a)]: a fresh buffer with the same cells and the same shape. *)
Definition np_copy (a : ndarray) : py ndarray :=
  fun w => (World (heap w ++ [buffer w a]) (stdout w),
            Ok (NdArray (length (heap w)) (time_steps a) (x_dim a) (y_dim a))).

(** [a[i, x, y] = v], [i] a Python int that fits an int64 ([fits_int64]),
    [x] and [y] loop counters.  For an [i] beyond int64 the code fails
    earlier and otherwise (an [OverflowError] or a [ValueError] on the
    integer itself); the model does not follow it there, and what is proved
    of the exception raised is proved for int64 indices. *)
Definition setitem (a : ndarray) (i : Z) (x y : nat) (v : float) : py unit :=
  fun w =>
    match normalize_index (time_steps a) i with
    | Some t =>
        if bool_decide (x < x_dim a /\ y < y_dim a)
        then (World (alter (fun buf => <[offset a t x y := v]> buf) (base a) (heap w))
                    (stdout w), Ok tt)
        else (w, Raise IndexError)
    | None => (w, Raise IndexError)
    end.

(** [a[:, x, y]]: the time series of one location (a view; it is read when
    it is indexed, and nothing writes to [a] in between). *)
Definition time_series_at (w : world) (a : ndarray) (x y : nat) : list float :=
  (fun t => getitem w a t x y) <$> seq 0 (time_steps a).

Definition getitem_time_axis (a : ndarray) (x y : nat) : py (list float) :=
  fun w => (w, Ok (time_series_at w a x y)).

(** The dtype [np.array] gives a list of Python ints: int64, but float64
    for the empty list. *)
Inductive dtype : Set := int64 | float64.

Definition np_array_dtype (l : list Z) : dtype :=
  match l with [] => float64 | _ :: _ => int64 end.

(** [series[np.array(indices)]]: an index array that is not of an integer
    type is refused (IndexError: arrays used as indices must be of integer
    (or boolean) type), and so is an index outside the series. *)
Definition fancy_index (series : list float) (indices : list Z) : result (list float) :=
  match np_array_dtype indices with
  | float64 => Raise IndexError
  | int64 =>
      if forallb (fun i => bool_decide (is_Some (normalize_index (length series) i))) indices
      then Ok ((fun i => default nan (normalize_index (length series) i ≫= (series !!.))) <$> indices)
      else Raise IndexError
  end.

(** ** scipy.interpolate.interp1d, kind='cubic', fill_value="extrapolate" *)

(** [x] strictly increasing. *)
Fixpoint increasing (x : list Z) : bool :=
  match x with
  | a :: (b :: _) as rest => (a <? b)%Z && increasing rest
  | _ => true
  end.

Section Interpolator.

(** The numerical core: the value at a point of the not-a-knot cubic
    spline through at least four samples with increasing abscissae, as
    SciPy computes it in binary64.  It is evaluated wherever it is asked,
    inside or outside the sampled range ([fill_value="extrapolate"]). *)
Variable spline : list Z -> list float -> Z -> float.

(** [interp1d(x, y, kind='cubic', fill_value="extrapolate")].  The
    constructor raises [ValueError] when [x] and [y] differ in length ("x
    and y arrays must be equal in length along interpolation axis"), when
    there are fewer than [order + 1 = 4] samples ("x and y arrays must have
    at least 4 entries"; with two or three samples the spline construction
    already fails on its boundary conditions, a [ValueError] too), and when
    [x] (which it sorts first; the model is used on ascending [x] only) has
    a repeated abscissa.  When some [y] is NaN the spline is fitted to
    dummy data and every evaluation returns NaN.  Calling the interpolator
    does no bounds check ([fill_value="extrapolate"]): the core is evaluated
    at the point asked for. *)
Definition interp1d (x : list Z) (y : list float) : result (Z -> float) :=
  if negb (Nat.eqb (length x) (length y)) then Raise ValueError
  else if Nat.ltb (length x) 4 then Raise ValueError
  else if negb (increasing x) then Raise ValueError
  else if existsb is_nan y then Ok (fun _ => nan)
  else Ok (spline x y).

(** ** src/spline_interpolation.py *)

(** [[i for i in range(time_steps) if i != missing_index]] *)
Definition valid_indices (time_steps : nat) (missing_index : Z) : list Z :=
  filter (fun i => i <> missing_index) (Z.of_nat <$> seq 0 time_steps).

(** The line printed for a skipped location. *)
Definition skip_message (x y : nat) : string :=
  "Not enough valid data to interpolate at position (" +:+ pretty x +:+ ", "
    +:+ pretty y +:+ "). Skipping...".

(** The body of the two loops, lines 23 to 39, for one location. *)
Definition location_body (data_3d : ndarray) (missing_index : Z)
    (interpolated_data : ndarray) (x y : nat) : py unit :=
  (time_series <- getitem_time_axis data_3d x y ;;
   let valid_time_points := valid_indices (time_steps data_3d) missing_index in
   valid_data_points <- lift (fancy_index time_series valid_time_points) ;;
   if bool_decide (2 <= length valid_data_points) then
     interpolator <- lift (interp1d valid_time_points valid_data_points) ;;
     setitem interpolated_data missing_index x y (interpolator missing_index)
   else
     print (skip_message x y))%py.

Definition interpolate_missing_data_3d_spline
    (data_3d : ndarray) (missing_index : Z) : py ndarray :=
  (interpolated_data <- np_copy data_3d ;;
   for_each (seq 0 (x_dim data_3d)) (fun x =>
     for_each (seq 0 (y_dim data_3d)) (fun y =>
       location_body data_3d missing_index interpolated_data x y)) ;;
   ret interpolated_data)%py.

End Interpolator.

(** ** Running the model *)

(** [world_of cells] holds one buffer, at address 0, and has printed
    nothing; [array_of t x y] is the array of shape [(t, x, y)] on that
    buffer. *)
Definition world_of (cells : list float) : world := World [cells] [].

Definition array_of (t x y : nat) : ndarray := NdArray 0 t x y.

Definition float_of_Z (z : Z) : float :=
  if (z <? 0)%Z then (- of_uint63 (Uint63.of_Z (- z)))%float
  else of_uint63 (Uint63.of_Z z).

(** The polynomial through the samples, in Lagrange form.  For four samples
    the not-a-knot cubic spline is this polynomial, so on volumes with five
    time steps [polynomial_core] is, up to rounding, the numerical core; it
    is used to run the model on examples only. *)
Definition lagrange_basis (xs : list Z) (xi x : Z) : float :=
  foldr (fun xj acc => if (xj =? xi)%Z then acc
                       else (acc * float_of_Z (x - xj) / float_of_Z (xi - xj))%float)
        1%float xs.

Definition polynomial_core (xs : list Z) (ys : list float) (x : Z) : float :=
  foldr (fun '(xi, yi) acc => (yi * lagrange_basis xs xi x + acc)%float)
        0%float (zip xs ys).

(** ** The fit of one location *)

(** The samples the fit of one location receives, and the value the
    interpolator returns at [missing_index]: functions of the location's
    time series and of [missing_index] alone. *)
Definition valid_samples (series : list float) (missing_index : Z) : list float :=
  (fun i => default nan (series !! Z.to_nat i)) <$> valid_indices (length series) missing_index.

Definition fitted (spline : list Z -> list float -> Z -> float)
    (series : list float) (missing_index : Z) : float :=
  if existsb is_nan (valid_samples series missing_index) then nan
  else spline (valid_indices (length series) missing_index)
              (valid_samples series missing_index) missing_index.

(** ** Names for the proofs

    The spatial locations in the order the two loops visit them; the array
    [np.copy] returns in a world [w] and the world once its buffer is
    allocated; the write of the loop body at one location, and the body as a
    function of the location. *)
Definition locations (X Y : nat) : list (nat * nat) :=
  seq 0 X ≫= fun x => pair x <$> seq 0 Y.

Definition copy_array (w : world) (data_3d : ndarray) : ndarray :=
  NdArray (length (heap w)) (time_steps data_3d) (x_dim data_3d) (y_dim data_3d).

Definition copy_world (w : world) (buf : list float) (out : list string) : world :=
  World (heap w ++ [buf]) out.

Definition write_fit (spline : list Z -> list float -> Z -> float) (w : world)
    (data_3d : ndarray) (missing_index : Z) (t : nat) (buf : list float)
    (p : nat * nat) : list float :=
  <[offset data_3d t p.1 p.2 :=
      fitted spline (time_series_at w data_3d p.1 p.2) missing_index]> buf.

Definition body_at (spline : list Z -> list float -> Z -> float) (w : world)
    (data_3d : ndarray) (missing_index : Z) (p : nat * nat) : py unit :=
  location_body spline data_3d missing_index (copy_array w data_3d) p.1 p.2.

(** ** Observations of a run *)

(** The cells of one time slice, in row-major order. *)
Definition time_slice (w : world) (a : ndarray) (t : nat) : list float :=
  (fun p => getitem w a t p.1 p.2) <$> locations (x_dim a) (y_dim a).

(** [interpolate_missing_data_3d_spline(data_3d, missing_index)[missing_index, x, y]]
    for [missing_index] in [[0, T)]. *)
Definition output_cell (spline : list Z -> list float -> Z -> float)
    (data_3d : ndarray) (missing_index : Z) (w : world) (x y : nat) : result float :=
  let '(w', r) := interpolate_missing_data_3d_spline spline data_3d missing_index w in
  result_map (fun out => getitem w' out (Z.to_nat missing_index) x y) r.

(** What the call does for one location, from its time series alone. *)
Definition cell_outcome (spline : list Z -> list float -> Z -> float)
    (series : list float) (missing_index : Z) : result float :=
  match length (valid_indices (length series) missing_index) with
  | 0 => Raise IndexError
  | 1 => Ok (default nan (series !! Z.to_nat missing_index))
  | 2 | 3 => Raise ValueError
  | _ => Ok (fitted spline series missing_index)
  end.

(** The number of valid samples of every location, and how a call on a
    volume of shape [(T, X, Y)] ends: a function of the shape and of
    [missing_index], whatever the cells. *)
Definition samples_per_location (T : nat) (missing_index : Z) : nat :=
  if bool_decide (0 <= missing_index < Z.of_nat T)%Z then T - 1 else T.

Definition call_kind (T X Y : nat) (missing_index : Z) : result unit :=
  if bool_decide (X = 0 \/ Y = 0) then Ok tt
  else match samples_per_location T missing_index with
       | 0 => Raise IndexError
       | 1 => Ok tt
       | 2 | 3 => Raise ValueError
       | _ => match normalize_index T missing_index with
              | Some _ => Ok tt
              | None => Raise IndexError
              end
       end.

(** ** Example volumes *)

(** One location, five time steps, the values of [t^3]. *)
Definition cubic5 : list float := [0; 1; 8; 27; 64]%float.

(** [cubic5] with other content at time index 2. *)
Definition cubic5_damaged : list float := [0; 1; nan; 27; 64]%float.

(** One location, five time steps, NaN everywhere but at time index 2. *)
Definition gap5 : list float := [nan; nan; 7; nan; nan]%float.

(** Two volumes of shapes (5, 1, 2) and (5, 2, 1) with the same time series
    at location (0, 0). *)
Definition wide5 : list float := [0; 100; 1; 200; 8; 300; 27; 400; 64; 500]%float.
Definition tall5 : list float := [0; 3; 1; 4; 8; 1; 27; 5; 64; 9]%float.

(** ** src/create_stack_array_of_monthly_data.py: the expected file names *)

(** [range(a, b)] *)
Definition py_range (a b : Z) : list Z := seqZ a (b - a).

(** [f"{n:02d}"]: decimal, padded with a zero to two characters (a minus
    sign counts as a character). *)
Definition format_02d (n : Z) : string :=
  if ((0 <=? n) && (n <? 10))%Z then "0" +:+ pretty n else pretty n.

(** [f"clipped_final_img_{year}_{month:02d}.tif"] *)
Definition monthly_filename (year month : Z) : string :=
  "clipped_final_img_" +:+ pretty year +:+ "_" +:+ format_02d month +:+ ".tif".

Definition generate_expected_filenames (start_year end_year : Z) : list string :=
  py_range start_year (end_year + 1) ≫= fun year =>
    monthly_filename year <$> py_range 1 13.

(** ** src/create_stack_array_of_monthly_data.py: reading and stacking *)

(** [os.path.join(a, b)] on POSIX paths (the paths of the scripts are): an
    absolute [b] replaces [a]; otherwise [b] is appended, after a "/" unless
    [a] is empty or ends with one. *)
Fixpoint ends_with_slash (s : string) : bool :=
  match s with
  | EmptyString => false
  | String c rest =>
      if bool_decide (rest = "") then bool_decide (s = "/") else ends_with_slash rest
  end.

Definition path_join (a b : string) : string :=
  if String.prefix "/" b then b
  else if bool_decide (a = "") || ends_with_slash a then a +:+ b
  else a +:+ "/" +:+ b.

(** The first band of a raster file: a two-dimensional array, its cells as
    the float64 values they become when they are stored in a float64
    array. *)
Record raster : Type := Raster {
  rows : nat;
  cols : nat;
  pixels : list float
}.

Definition raster_wf (r : raster) : Prop := length (pixels r) = rows r * cols r.

(** What [with rasterio.open(path) as src: src.read(1)] gives: the band, or
    a [RasterioIOError] with its message (no such file, not a raster,
    ...). *)
Inductive read_outcome : Type :=
| Band (array : raster)
| RasterioIOError (message : string).

(** How [get_shape_of_first_tiff] ends. *)
Inductive shape_outcome : Set :=
| Shape (n_rows n_cols : nat)
| FileNotFoundError.

(** [np.full((n_rows, n_cols, n), np.nan)] *)
Definition np_full_nan (n_rows n_cols n : nat) : py ndarray :=
  fun w => (World (heap w ++ [replicate (n_rows * n_cols * n) nan]) (stdout w),
            Ok (NdArray (length (heap w)) n_rows n_cols n)).

(** The array [np.full] returns in the world [w]. *)
Definition full_array (w : world) (n_rows n_cols n : nat) : ndarray :=
  NdArray (length (heap w)) n_rows n_cols n.

(** NumPy's broadcasting of a two-dimensional array into a slot of shape
    [(n_rows, n_cols)]: each axis has the length of the slot or length 1,
    and an axis of length 1 is repeated. *)
Definition broadcastable (array : raster) (n_rows n_cols : nat) : bool :=
  (Nat.eqb (rows array) n_rows || Nat.eqb (rows array) 1)
  && (Nat.eqb (cols array) n_cols || Nat.eqb (cols array) 1).

Definition broadcast_pixel (array : raster) (i j : nat) : float :=
  default nan
    (pixels array !! ((if Nat.eqb (rows array) 1 then 0 else i) * cols array
                      + (if Nat.eqb (cols array) 1 then 0 else j))).

(** The cells of [a[..., index]] after [a[..., index] = array]. *)
Definition write_slot (a : ndarray) (index : nat) (array : raster)
    (buf : list float) : list float :=
  foldl (fun b p => <[offset a p.1 p.2 index := broadcast_pixel array p.1 p.2]> b)
        buf (locations (time_steps a) (x_dim a)).

(** [a[..., index] = array] for a three-dimensional [a] (whose axes are
    here rows, columns and time: [time_steps a] is its number of rows,
    [x_dim a] of columns, [y_dim a] of time steps): [IndexError] for an index
    outside the last axis, [ValueError] when [array] cannot be broadcast
    into the slot. *)
Definition setitem_last_axis (a : ndarray) (index : nat) (array : raster) : py unit :=
  fun w =>
    if negb (Nat.ltb index (y_dim a)) then (w, Raise IndexError)
    else if broadcastable array (time_steps a) (x_dim a)
    then (World (alter (write_slot a index array) (base a) (heap w)) (stdout w), Ok tt)
    else (w, Raise ValueError).

(** [enumerate(l)] *)
Fixpoint enumerate_from {A} (n : nat) (l : list A) : list (nat * A) :=
  match l with
  | [] => []
  | x :: rest => (n, x) :: enumerate_from (S n) rest
  end.

Definition enumerate {A} (l : list A) : list (nat * A) := enumerate_from 0 l.

Section Files.

(** The files as rasterio reads them. *)
Variable rasterio_read : string -> read_outcome.

(** [read_tiff_to_array]: announces the path, then reads. *)
Definition read_tiff_to_array (tiff_path : string) (w : world) : world * read_outcome :=
  ((print ("Attempting to read file: " +:+ tiff_path) w).1, rasterio_read tiff_path).

(** [get_shape_of_first_tiff]: the loop over the file names, the final
    [raise] when it runs out of them. *)
Fixpoint get_shape_of_first_tiff (tiff_files : list string) (tiff_directory : string)
    (w : world) : world * shape_outcome :=
  match tiff_files with
  | [] => (w, FileNotFoundError)
  | file :: rest =>
      let file_path := path_join tiff_directory file in
      match rasterio_read file_path with
      | Band array => (w, Shape (rows array) (cols array))
      | RasterioIOError e =>
          get_shape_of_first_tiff rest tiff_directory
            (print ("Error reading file " +:+ file_path +:+ ": " +:+ e) w).1
      end
  end.

(** The body of the loop of [stack_tiff_files_with_nans], lines 77 to 86. *)
Definition stack_body (tiff_files : list string) (tiff_directory : string)
    (stacked_array : ndarray) (index : nat) (filename : string) : py unit :=
  let file_path := path_join tiff_directory filename in
  if bool_decide (filename ∈ tiff_files) then
    fun w =>
      match read_tiff_to_array file_path w with
      | (w', Band array) => setitem_last_axis stacked_array index array w'
      | (w', RasterioIOError e) =>
          print ("Error reading file " +:+ file_path +:+ ": " +:+ e) w'
      end
  else
    print ("Missing file: " +:+ filename).

Definition stack_tiff_files_with_nans (expected_files tiff_files : list string)
    (array_shape : nat * nat) (tiff_directory : string) : py ndarray :=
  (stacked_array <- np_full_nan array_shape.1 array_shape.2 (length expected_files) ;;
   for_each (enumerate expected_files) (fun entry =>
     stack_body tiff_files tiff_directory stacked_array entry.1 entry.2) ;;
   ret stacked_array)%py.

(** *** What the loop does with one expected file

    The raster that fills the slot of an expected file (none for a file
    that is not listed or cannot be read), the lines the loop prints for it,
    whether its step passes, and the step on the buffer of the stack. *)
Definition slot_source (tiff_files : list string) (tiff_directory filename : string)
    : option raster :=
  if bool_decide (filename ∈ tiff_files) then
    match rasterio_read (path_join tiff_directory filename) with
    | Band array => Some array
    | RasterioIOError _ => None
    end
  else None.

Definition stack_log (tiff_files : list string) (tiff_directory filename : string)
    : list string :=
  let file_path := path_join tiff_directory filename in
  if bool_decide (filename ∈ tiff_files) then
    ("Attempting to read file: " +:+ file_path)
      :: match rasterio_read file_path with
         | Band _ => []
         | RasterioIOError e => ["Error reading file " +:+ file_path +:+ ": " +:+ e]
         end
  else ["Missing file: " +:+ filename].

Definition slot_fits (tiff_files : list string) (tiff_directory : string)
    (array_shape : nat * nat) (filename : string) : bool :=
  match slot_source tiff_files tiff_directory filename with
  | Some array => broadcastable array array_shape.1 array_shape.2
  | None => true
  end.

Definition stack_step (tiff_files : list string) (tiff_directory : string)
    (stacked_array : ndarray) (buf : list float) (entry : nat * string) : list float :=
  match slot_source tiff_files tiff_directory entry.2 with
  | Some array => write_slot stacked_array entry.1 array buf
  | None => buf
  end.

(** The line [get_shape_of_first_tiff] prints for a file it cannot read. *)
Definition shape_error_line (tiff_directory file : string) : string :=
  let file_path := path_join tiff_directory file in
  match rasterio_read file_path with
  | Band _ => ""
  | RasterioIOError e => "Error reading file " +:+ file_path +:+ ": " +:+ e
  end.

Definition unreadable (tiff_directory file : string) : Prop :=
  exists e, rasterio_read (path_join tiff_directory file) = RasterioIOError e.

End Files.

(** ** src/separate_stack_arrays_for_all_months.py *)

(** The exceptions of this script: the [FileNotFoundError] of
    [get_shape_of_first_tiff], the [KeyError] of a dict lookup, and
    NumPy's. *)
Inductive script_exn : Set :=
| FileNotFound
| KeyError
| NumPyError (e : exn).

Inductive outcome (A : Type) : Type :=
| Return (a : A)
| Throw (e : script_exn).
Arguments Return {A} a.
Arguments Throw {A} e.

Definition io (A : Type) : Type := world -> world * outcome A.

Definition io_ret {A} (a : A) : io A := fun w => (w, Return a).

Definition io_bind {A B} (c : io A) (k : A -> io B) : io B :=
  fun w => match c w with
           | (w', Return a) => k a w'
           | (w', Throw e) => (w', Throw e)
           end.

(** A computation that can only raise NumPy's exceptions. *)
Definition io_of_py {A} (c : py A) : io A :=
  fun w => match c w with
           | (w', Ok a) => (w', Return a)
           | (w', Raise e) => (w', Throw (NumPyError e))
           end.

Fixpoint io_for_each {A} (xs : list A) (body : A -> io unit) : io unit :=
  match xs with
  | [] => io_ret tt
  | x :: rest => io_bind (body x) (fun _ => io_for_each rest body)
  end.

(** [np.full((n_rows, n_cols, n), np.nan)] for a Python int [n]: negative
    dimensions are not allowed ([ValueError]). *)
Definition np_full_nan_int (n_rows n_cols : nat) (n : Z) : io ndarray :=
  if (n <? 0)%Z then fun w => (w, Throw (NumPyError ValueError))
  else io_of_py (np_full_nan n_rows n_cols (Z.to_nat n)).

(** [{month: np.full(...) for month in months}]: the dict as the list of
    its items, in insertion order. *)
Fixpoint full_nan_per_month (months : list Z) (n_rows n_cols : nat) (n : Z)
    : io (list (Z * ndarray)) :=
  match months with
  | [] => io_ret []
  | month :: rest =>
      io_bind (np_full_nan_int n_rows n_cols n) (fun array =>
      io_bind (full_nan_per_month rest n_rows n_cols n) (fun items =>
      io_ret ((month, array) :: items)))
  end.

(** [d[key]] *)
Definition dict_get (d : list (Z * ndarray)) (key : Z) : option ndarray :=
  (fun found => found.2.2) <$> list_find (fun item => item.1 = key) d.

(** [a[..., index] = array] for a Python int [index]. *)
Definition setitem_last_axis_int (a : ndarray) (index : Z) (array : raster) : py unit :=
  match normalize_index (y_dim a) index with
  | Some k => setitem_last_axis a k array
  | None => fun w => (w, Raise IndexError)
  end.

Section MonthlyFiles.

Variable rasterio_read : string -> read_outcome.

(** [os.path.exists] *)
Variable path_exists : string -> bool.

(** The body of the two loops of [create_monthly_3d_arrays], lines 76 to
    92, for one year and month. *)
Definition monthly_body (tiff_files missing_files : list string) (start_year : Z)
    (tiff_directory : string) (monthly_arrays : list (Z * ndarray))
    (year month : Z) : io unit :=
  let filename := monthly_filename year month in
  let file_path := path_join tiff_directory filename in
  let year_index := (year - start_year)%Z in
  if bool_decide (filename ∈ missing_files) then
    io_of_py (print ("Skipping missing file: " +:+ filename))
  else if bool_decide (filename ∈ tiff_files) && path_exists file_path then
    match rasterio_read file_path with
    | Band array =>
        match dict_get monthly_arrays month with
        | Some month_array =>
            io_of_py (setitem_last_axis_int month_array year_index array)
        | None => fun w => (w, Throw KeyError)
        end
    | RasterioIOError e =>
        io_of_py (print ("Error reading file " +:+ file_path +:+ ": " +:+ e))
    end
  else
    io_of_py (print ("File not found: " +:+ file_path)).

Definition create_monthly_3d_arrays (tiff_files missing_files : list string)
    (start_year end_year : Z) (tiff_directory : string) : io (list (Z * ndarray)) :=
  fun w =>
    match get_shape_of_first_tiff rasterio_read tiff_files tiff_directory w with
    | (w1, FileNotFoundError) => (w1, Throw FileNotFound)
    | (w1, Shape n_rows n_cols) =>
        let total_years := (end_year - start_year + 1)%Z in
        io_bind (full_nan_per_month (py_range 1 13) n_rows n_cols total_years)
          (fun monthly_arrays =>
        io_bind (io_for_each (py_range start_year (end_year + 1)) (fun year =>
                   io_for_each (py_range 1 13) (fun month =>
                     monthly_body tiff_files missing_files start_year tiff_directory
                       monthly_arrays year month)))
          (fun _ => io_ret monthly_arrays)) w1
    end.

(** *** What the loops do with one year and month

    The raster that fills the slot (none for a file named in
    [missing_files], not listed, absent or unreadable), the line printed,
    whether the step passes, the array of a month among the twelve that are
    allocated in the world [w], and the step on their buffers. *)
Definition month_source (tiff_files missing_files : list string)
    (tiff_directory : string) (year month : Z) : option raster :=
  let filename := monthly_filename year month in
  let file_path := path_join tiff_directory filename in
  if bool_decide (filename ∈ missing_files) then None
  else if bool_decide (filename ∈ tiff_files) && path_exists file_path then
    match rasterio_read file_path with
    | Band array => Some array
    | RasterioIOError _ => None
    end
  else None.

Definition month_log (tiff_files missing_files : list string)
    (tiff_directory : string) (entry : Z * Z) : list string :=
  let filename := monthly_filename entry.1 entry.2 in
  let file_path := path_join tiff_directory filename in
  if bool_decide (filename ∈ missing_files) then
    ["Skipping missing file: " +:+ filename]
  else if bool_decide (filename ∈ tiff_files) && path_exists file_path then
    match rasterio_read file_path with
    | Band _ => []
    | RasterioIOError e => ["Error reading file " +:+ file_path +:+ ": " +:+ e]
    end
  else ["File not found: " +:+ file_path].

Definition month_fits (tiff_files missing_files : list string)
    (tiff_directory : string) (array_shape : nat * nat) (entry : Z * Z) : bool :=
  match month_source tiff_files missing_files tiff_directory entry.1 entry.2 with
  | Some array => broadcastable array array_shape.1 array_shape.2
  | None => true
  end.

Definition month_array (w : world) (n_rows n_cols n : nat) (month : Z) : ndarray :=
  NdArray (length (heap w) + Z.to_nat (month - 1)) n_rows n_cols n.

Definition month_step (tiff_files missing_files : list string)
    (tiff_directory : string) (w : world) (n_rows n_cols n : nat) (start_year : Z)
    (bufs : list (list float)) (entry : Z * Z) : list (list float) :=
  match month_source tiff_files missing_files tiff_directory entry.1 entry.2 with
  | Some array =>
      alter (write_slot (month_array w n_rows n_cols n entry.2)
               (Z.to_nat (entry.1 - start_year)) array)
            (Z.to_nat (entry.2 - 1)) bufs
  | None => bufs
  end.

End MonthlyFiles.

(** The (year, month) pairs in the order of the two loops. *)
Definition year_months (start_year end_year : Z) : list (Z * Z) :=
  py_range start_year (end_year + 1) ≫= fun year => pair year <$> py_range 1 13.

(** The dict of the twelve arrays allocated in the world [w]; the entries
    the loops can meet on a time axis of length [n]; cell [(i, j, k)] of the
    buffer of month [m] among the twelve buffers. *)
Definition month_items (w : world) (n_rows n_cols n : nat) : list (Z * ndarray) :=
  (fun m => (m, month_array w n_rows n_cols n m)) <$> py_range 1 13.

Definition entry_in_range (n : nat) (start_year : Z) (entry : Z * Z) : Prop :=
  (0 <= entry.1 - start_year < Z.of_nat n)%Z /\ (1 <= entry.2 <= 12)%Z.

Definition month_cell (w : world) (n_rows n_cols n : nat) (bufs : list (list float))
    (m : Z) (i j k : nat) : option float :=
  bufs !! Z.to_nat (m - 1)
    ≫= fun buf => buf !! offset (month_array w n_rows n_cols n m) i j k.

(** ** Example files *)

(** A directory [d] with three rasters, of shapes (1, 2), (2, 2) and
    (3, 2); anything else cannot be read. *)
Definition example_files (path : string) : read_outcome :=
  if bool_decide (path = "d/a.tif") then Band (Raster 1 2 [1; 2]%float)
  else if bool_decide (path = "d/b.tif") then Band (Raster 2 2 [5; 6; 7; 8]%float)
  else if bool_decide (path = "d/c.tif") then Band (Raster 3 2 [5; 6; 7; 8; 9; 9]%float)
  else RasterioIOError "No such file or directory".

(** A directory [d] with the rasters of January 2003 and of February,
    March and April 2004, of shape (1, 2) but for the last, of shape
    (3, 2); the files that exist are those that can be read. *)
Definition example_month_files (path : string) : read_outcome :=
  if bool_decide (path = "d/clipped_final_img_2003_01.tif")
  then Band (Raster 1 2 [1; 2]%float)
  else if bool_decide (path = "d/clipped_final_img_2004_02.tif")
  then Band (Raster 1 2 [5; 6]%float)
  else if bool_decide (path = "d/clipped_final_img_2004_03.tif")
  then Band (Raster 1 2 [7; 8]%float)
  else if bool_decide (path = "d/clipped_final_img_2004_04.tif")
  then Band (Raster 3 2 [1; 1; 1; 1; 1; 1]%float)
  else RasterioIOError "No such file or directory".

Definition example_month_exists (path : string) : bool :=
  match example_month_files path with
  | Band _ => true
  | RasterioIOError _ => false
  end.

Definition example_listing : list string :=
  ["clipped_final_img_2003_01.tif"; "clipped_final_img_2004_02.tif";
   "clipped_final_img_2004_03.tif"].

(** * Properties *)

(** ** The valid indices *)

Lemma valid_indices_S (T : nat) (idx : Z) :
  valid_indices (S T) idx =
  valid_indices T idx ++ (if bool_decide (Z.of_nat T = idx) then [] else [Z.of_nat T]).
Proof.
  unfold valid_indices. rewrite seq_S, fmap_app, filter_app. f_equal.
  simpl. rewrite filter_cons, filter_nil.
  case_bool_decide; case_decide; congruence.
Qed.

Lemma elem_of_valid_indices (T : nat) (idx i : Z) :
  i ∈ valid_indices T idx <-> (0 <= i < Z.of_nat T)%Z /\ i <> idx.
Proof.
  unfold valid_indices. rewrite list_elem_of_filter, list_elem_of_fmap.
  split.
  - intros [Hne (k & -> & Hk)]. apply elem_of_seq in Hk. split; [lia | done].
  - intros [Hr Hne]. split; [done |]. exists (Z.to_nat i).
    split; [lia |]. apply elem_of_seq. lia.
Qed.

Lemma length_valid_indices (T : nat) (idx : Z) :
  length (valid_indices T idx) =
  if bool_decide (0 <= idx < Z.of_nat T)%Z then T - 1 else T.
Proof.
  induction T as [| T IH].
  - simpl. case_bool_decide; reflexivity.
  - rewrite valid_indices_S, length_app, IH.
    repeat case_bool_decide; simpl; lia.
Qed.

Lemma valid_indices_out_of_range (T : nat) (idx : Z) :
  ~ (0 <= idx < Z.of_nat T)%Z ->
  valid_indices T idx = Z.of_nat <$> seq 0 T.
Proof.
  intros Hout. induction T as [| T IH]; [reflexivity |].
  rewrite valid_indices_S, IH by lia.
  rewrite seq_S, fmap_app. simpl.
  case_bool_decide; [lia | reflexivity].
Qed.

Lemma increasing_snoc (l : list Z) (b : Z) :
  increasing l = true -> Forall (fun a => (a < b)%Z) l -> increasing (l ++ [b]) = true.
Proof.
  induction l as [| a [| a' l] IH]; intros Hinc Hall.
  - reflexivity.
  - simpl. apply Forall_cons_1 in Hall as [Ha _].
    apply andb_true_intro. split; [lia | reflexivity].
  - change (increasing ((a :: a' :: l) ++ [b]))
      with ((a <? a')%Z && increasing ((a' :: l) ++ [b])).
    change (increasing (a :: a' :: l))
      with ((a <? a')%Z && increasing (a' :: l)) in Hinc.
    apply andb_prop in Hinc as [Hlt Hinc].
    rewrite Hlt. simpl andb. apply IH; [exact Hinc |].
    apply Forall_cons_1 in Hall as [_ Hall]. exact Hall.
Qed.

Lemma valid_indices_increasing (T : nat) (idx : Z) :
  increasing (valid_indices T idx) = true.
Proof.
  induction T as [| T IH]; [reflexivity |].
  rewrite valid_indices_S. case_bool_decide.
  - rewrite app_nil_r. exact IH.
  - apply increasing_snoc; [exact IH |].
    apply Forall_forall. intros i Hi.
    apply elem_of_valid_indices in Hi. lia.
Qed.

(** ** Indexing *)

Lemma normalize_index_in_range (n : nat) (i : Z) :
  (0 <= i < Z.of_nat n)%Z -> normalize_index n i = Some (Z.to_nat i).
Proof.
  intros Hi. unfold normalize_index.
  destruct (Z.leb_spec 0 i), (Z.ltb_spec i (Z.of_nat n)); simpl; try lia.
  reflexivity.
Qed.

Lemma normalize_index_negative (n : nat) (i : Z) :
  (- Z.of_nat n <= i < 0)%Z -> normalize_index n i = Some (Z.to_nat (Z.of_nat n + i)).
Proof.
  intros Hi. unfold normalize_index.
  destruct (Z.leb_spec 0 i); simpl; [lia |].
  destruct (Z.leb_spec (- Z.of_nat n) i), (Z.ltb_spec i 0); simpl; try lia.
  reflexivity.
Qed.

Lemma normalize_index_outside (n : nat) (i : Z) :
  (i < - Z.of_nat n \/ Z.of_nat n <= i)%Z -> normalize_index n i = None.
Proof.
  intros Hi. unfold normalize_index.
  destruct (Z.leb_spec 0 i), (Z.ltb_spec i (Z.of_nat n)),
    (Z.leb_spec (- Z.of_nat n) i), (Z.ltb_spec i 0); simpl; try lia; reflexivity.
Qed.

Lemma normalize_index_bound (n : nat) (i : Z) (t : nat) :
  normalize_index n i = Some t -> t < n.
Proof.
  unfold normalize_index.
  destruct (Z.leb_spec 0 i), (Z.ltb_spec i (Z.of_nat n)),
    (Z.leb_spec (- Z.of_nat n) i), (Z.ltb_spec i 0); simpl;
    intros [= <-]; lia.
Qed.

Lemma fancy_index_valid (series : list float) (idx : Z) :
  valid_indices (length series) idx <> [] ->
  fancy_index series (valid_indices (length series) idx) = Ok (valid_samples series idx).
Proof.
  intros Hne. unfold fancy_index, valid_samples.
  destruct (valid_indices (length series) idx) as [| i0 l] eqn:Hvi; [done |].
  simpl np_array_dtype. cbv iota. rewrite <- Hvi.
  assert (Hall : Forall (fun i => normalize_index (length series) i = Some (Z.to_nat i))
                   (valid_indices (length series) idx)).
  { apply Forall_forall. intros i Hi. apply elem_of_valid_indices in Hi.
    apply normalize_index_in_range. lia. }
  assert (Hchk : forallb (fun i => bool_decide (is_Some (normalize_index (length series) i)))
                   (valid_indices (length series) idx) = true).
  { apply forallb_forall. intros i Hi. apply list_elem_of_In in Hi.
    rewrite Forall_forall in Hall. rewrite (Hall i Hi).
    apply bool_decide_eq_true. eauto. }
  rewrite Hchk. f_equal. apply Forall_fmap_ext_1.
  eapply Forall_impl; [exact Hall |]. intros i Hi. simpl. rewrite Hi. reflexivity.
Qed.

Lemma offset_bound (a : ndarray) (t x y : nat) :
  t < time_steps a -> x < x_dim a -> y < y_dim a -> offset a t x y < size a.
Proof.
  unfold offset, size. intros Ht Hx Hy.
  assert (t * x_dim a + x + 1 <= time_steps a * x_dim a) by nia.
  nia.
Qed.

Lemma offset_inj (a : ndarray) (t x y t' x' y' : nat) :
  x < x_dim a -> y < y_dim a -> x' < x_dim a -> y' < y_dim a ->
  offset a t x y = offset a t' x' y' -> t = t' /\ x = x' /\ y = y'.
Proof.
  unfold offset. intros Hx Hy Hx' Hy' Heq.
  assert (t * x_dim a + x = t' * x_dim a + x') as Hrow by nia.
  assert (t = t') by nia.
  subst t'. split; [reflexivity |]. split; nia.
Qed.

(** ** The loops *)

Lemma for_each_app {A} (l1 l2 : list A) (body : A -> py unit) (w : world) :
  for_each (l1 ++ l2) body w = (for_each l1 body ;; for_each l2 body)%py w.
Proof.
  revert w. induction l1 as [| x l1 IH]; intros w; simpl.
  - reflexivity.
  - unfold bind in *. destruct (body x w) as [w' [[] | e]]; [apply IH | reflexivity].
Qed.

Lemma for_each_fmap {A B} (f : A -> B) (l : list A) (body : B -> py unit) (w : world) :
  for_each (f <$> l) body w = for_each l (fun x => body (f x)) w.
Proof.
  revert w. induction l as [| x l IH]; intros w; simpl; [reflexivity |].
  unfold bind. destruct (body (f x) w) as [w' [[] | e]]; [apply IH | reflexivity].
Qed.

Lemma for_each_nested (xs ys : list nat) (body : nat -> nat -> py unit) (w : world) :
  for_each xs (fun x => for_each ys (body x)) w =
  for_each (xs ≫= fun x => pair x <$> ys) (fun p => body p.1 p.2) w.
Proof.
  revert w. induction xs as [| x xs IH]; intros w; [reflexivity |].
  change ((x :: xs) ≫= (fun x => pair x <$> ys))
    with ((pair x <$> ys) ++ (xs ≫= (fun x => pair x <$> ys))).
  rewrite for_each_app. simpl. unfold bind.
  rewrite for_each_fmap. simpl.
  destruct (for_each ys (body x) w) as [w' [[] | e]]; [apply IH | reflexivity].
Qed.

Lemma elem_of_locations (X Y x y : nat) :
  (x, y) ∈ locations X Y <-> x < X /\ y < Y.
Proof.
  unfold locations. rewrite list_elem_of_bind. split.
  - intros (x' & Hin & Hx'). apply list_elem_of_fmap in Hin as (y' & [= -> ->] & Hy').
    apply elem_of_seq in Hx'. apply elem_of_seq in Hy'. lia.
  - intros [Hx Hy]. exists x. split.
    + apply list_elem_of_fmap. exists y. split; [reflexivity |]. apply elem_of_seq. lia.
    + apply elem_of_seq. lia.
Qed.

Lemma locations_nonempty (X Y : nat) :
  0 < X -> 0 < Y -> exists l, locations X Y = (0, 0) :: l.
Proof.
  intros HX HY. destruct X as [| X]; [lia |]. destruct Y as [| Y]; [lia |].
  eexists. reflexivity.
Qed.

Lemma locations_empty (X Y : nat) :
  X = 0 \/ Y = 0 -> locations X Y = [].
Proof.
  intros [-> | ->]; [reflexivity |].
  unfold locations. induction (seq 0 X) as [| x l IH]; [reflexivity |].
  simpl. exact IH.
Qed.

(** ** One call on a well-formed volume *)

Section Run.

Variable spline : list Z -> list float -> Z -> float.
Variables (w : world) (data_3d : ndarray) (missing_index : Z) (cells : list float).
Hypothesis Hcells : heap w !! base data_3d = Some cells.

Lemma time_series_stable (buf : list float) (out : list string) (x y : nat) :
  time_series_at (copy_world w buf out) data_3d x y = time_series_at w data_3d x y.
Proof.
  unfold time_series_at, getitem, buffer, copy_world. simpl.
  rewrite (lookup_app_l_Some _ _ _ _ Hcells), Hcells. reflexivity.
Qed.

Lemma length_time_series (x y : nat) :
  length (time_series_at w data_3d x y) = time_steps data_3d.
Proof. unfold time_series_at. rewrite length_fmap, length_seq. reflexivity. Qed.

Lemma fancy_index_series (x y : nat) :
  valid_indices (time_steps data_3d) missing_index <> [] ->
  fancy_index (time_series_at w data_3d x y) (valid_indices (time_steps data_3d) missing_index)
  = Ok (valid_samples (time_series_at w data_3d x y) missing_index).
Proof.
  intros Hne. rewrite <- (length_time_series x y) in Hne |- *.
  apply fancy_index_valid. exact Hne.
Qed.

Lemma length_valid_samples (x y : nat) :
  length (valid_samples (time_series_at w data_3d x y) missing_index)
  = length (valid_indices (time_steps data_3d) missing_index).
Proof.
  unfold valid_samples. rewrite length_fmap, length_time_series. reflexivity.
Qed.

Lemma body_no_samples (buf : list float) (out : list string) (x y : nat) :
  valid_indices (time_steps data_3d) missing_index = [] ->
  location_body spline data_3d missing_index (copy_array w data_3d) x y (copy_world w buf out)
  = (copy_world w buf out, Raise IndexError).
Proof.
  intros Hvi. unfold location_body, bind, lift, getitem_time_axis. rewrite Hvi. reflexivity.
Qed.

Lemma body_skip (buf : list float) (out : list string) (x y : nat) :
  length (valid_indices (time_steps data_3d) missing_index) = 1 ->
  location_body spline data_3d missing_index (copy_array w data_3d) x y (copy_world w buf out)
  = (copy_world w buf (out ++ [skip_message x y]), Ok tt).
Proof.
  intros Hn. unfold location_body, bind, lift, getitem_time_axis.
  rewrite time_series_stable, fancy_index_series
    by (intros Hnil; rewrite Hnil in Hn; discriminate).
  rewrite length_valid_samples, Hn. reflexivity.
Qed.

Lemma body_too_few (buf : list float) (out : list string) (x y : nat) :
  2 <= length (valid_indices (time_steps data_3d) missing_index) < 4 ->
  location_body spline data_3d missing_index (copy_array w data_3d) x y (copy_world w buf out)
  = (copy_world w buf out, Raise ValueError).
Proof.
  intros Hn. unfold location_body, bind, lift, getitem_time_axis.
  rewrite time_series_stable, fancy_index_series
    by (intros Hnil; rewrite Hnil in Hn; simpl in Hn; lia).
  rewrite length_valid_samples, bool_decide_eq_true_2 by lia.
  unfold interp1d. rewrite length_valid_samples, Nat.eqb_refl. simpl negb. cbv iota.
  destruct (Nat.ltb_spec (length (valid_indices (time_steps data_3d) missing_index)) 4);
    [reflexivity | lia].
Qed.

Lemma interp1d_enough (x y : nat) :
  4 <= length (valid_indices (time_steps data_3d) missing_index) ->
  exists f, interp1d spline (valid_indices (time_steps data_3d) missing_index)
              (valid_samples (time_series_at w data_3d x y) missing_index) = Ok f
            /\ f missing_index = fitted spline (time_series_at w data_3d x y) missing_index.
Proof.
  intros Hn. unfold interp1d, fitted.
  rewrite length_valid_samples, Nat.eqb_refl. simpl negb. cbv iota.
  destruct (Nat.ltb_spec (length (valid_indices (time_steps data_3d) missing_index)) 4);
    [lia |].
  rewrite valid_indices_increasing. simpl negb. cbv iota.
  rewrite length_time_series.
  destruct (existsb is_nan _); eexists; split; reflexivity.
Qed.

Lemma body_bad_index (buf : list float) (out : list string) (x y : nat) :
  4 <= length (valid_indices (time_steps data_3d) missing_index) ->
  normalize_index (time_steps data_3d) missing_index = None ->
  location_body spline data_3d missing_index (copy_array w data_3d) x y (copy_world w buf out)
  = (copy_world w buf out, Raise IndexError).
Proof.
  intros Hn Hidx. unfold location_body, bind, lift, getitem_time_axis.
  rewrite time_series_stable, fancy_index_series
    by (intros Hnil; rewrite Hnil in Hn; simpl in Hn; lia).
  rewrite length_valid_samples, bool_decide_eq_true_2 by lia.
  destruct (interp1d_enough x y Hn) as (f & -> & _).
  unfold setitem. simpl time_steps. rewrite Hidx. reflexivity.
Qed.

Lemma body_fit (buf : list float) (out : list string) (x y t : nat) :
  4 <= length (valid_indices (time_steps data_3d) missing_index) ->
  normalize_index (time_steps data_3d) missing_index = Some t ->
  x < x_dim data_3d -> y < y_dim data_3d ->
  location_body spline data_3d missing_index (copy_array w data_3d) x y (copy_world w buf out)
  = (copy_world w (<[offset data_3d t x y :=
                     fitted spline (time_series_at w data_3d x y) missing_index]> buf) out,
     Ok tt).
Proof.
  intros Hn Hidx Hx Hy. unfold location_body, bind, lift, getitem_time_axis.
  rewrite time_series_stable, fancy_index_series
    by (intros Hnil; rewrite Hnil in Hn; simpl in Hn; lia).
  rewrite length_valid_samples, bool_decide_eq_true_2 by lia.
  destruct (interp1d_enough x y Hn) as (f & -> & ->).
  unfold setitem. simpl time_steps. rewrite Hidx.
  simpl x_dim. simpl y_dim. rewrite bool_decide_eq_true_2 by lia.
  unfold copy_world. simpl. f_equal. f_equal.
  rewrite <- (Nat.add_0_r (length (heap w))), alter_app_r. reflexivity.
Qed.

Lemma loop_fit (t : nat) (l : list (nat * nat)) (buf : list float) (out : list string) :
  4 <= length (valid_indices (time_steps data_3d) missing_index) ->
  normalize_index (time_steps data_3d) missing_index = Some t ->
  Forall (fun p => p.1 < x_dim data_3d /\ p.2 < y_dim data_3d) l ->
  for_each l (body_at spline w data_3d missing_index) (copy_world w buf out) = (copy_world w (foldl (write_fit spline w data_3d missing_index t) buf l) out, Ok tt).
Proof.
  intros Hn Hidx. revert buf. induction l as [| [x y] l IH]; intros buf Hin.
  - reflexivity.
  - apply Forall_cons_1 in Hin as [[Hx Hy] Hin]. simpl in Hx, Hy.
    simpl for_each. unfold bind, body_at at 1. simpl fst. simpl snd.
    rewrite (body_fit buf out x y t Hn Hidx Hx Hy).
    rewrite (IH _ Hin). reflexivity.
Qed.

Lemma loop_skip (l : list (nat * nat)) (buf : list float) (out : list string) :
  length (valid_indices (time_steps data_3d) missing_index) = 1 ->
  for_each l (body_at spline w data_3d missing_index) (copy_world w buf out)
  = (copy_world w buf (out ++ ((fun p => skip_message p.1 p.2) <$> l)), Ok tt).
Proof.
  intros Hn. revert out. induction l as [| [x y] l IH]; intros out.
  - simpl. rewrite app_nil_r. reflexivity.
  - simpl for_each. unfold bind, body_at at 1. simpl fst. simpl snd.
    rewrite (body_skip buf out x y Hn), IH.
    rewrite <- app_assoc. reflexivity.
Qed.

Lemma loop_raise (e : exn) (l : list (nat * nat)) (buf : list float) (out : list string) :
  (forall x y, location_body spline data_3d missing_index (copy_array w data_3d) x y (copy_world w buf out)
               = (copy_world w buf out, Raise e)) ->
  for_each ((0, 0) :: l) (body_at spline w data_3d missing_index) (copy_world w buf out) = (copy_world w buf out, Raise e).
Proof.
  intros Hbody. simpl. unfold bind, body_at at 1. simpl fst. simpl snd.
  rewrite Hbody. reflexivity.
Qed.

(** The call is the copy followed by one loop over the locations. *)
Lemma run_unfold :
  interpolate_missing_data_3d_spline spline data_3d missing_index w =
  match for_each (locations (x_dim data_3d) (y_dim data_3d)) (body_at spline w data_3d missing_index)
          (copy_world w cells (stdout w)) with
  | (w', Ok _) => (w', Ok (copy_array w data_3d))
  | (w', Raise e) => (w', Raise e)
  end.
Proof.
  unfold interpolate_missing_data_3d_spline, bind, np_copy, buffer.
  rewrite Hcells. simpl default.
  fold (copy_array w data_3d). fold (copy_world w cells (stdout w)).
  rewrite (for_each_nested _ _
             (location_body spline data_3d missing_index (copy_array w data_3d))).
  fold (locations (x_dim data_3d) (y_dim data_3d)).
  change (fun p : nat * nat => location_body spline data_3d missing_index (copy_array w data_3d) p.1 p.2)
    with (body_at spline w data_3d missing_index).
  destruct (for_each _ (body_at spline w data_3d missing_index) _) as [w' [[] | e]]; reflexivity.
Qed.

Lemma run_empty :
  x_dim data_3d = 0 \/ y_dim data_3d = 0 ->
  interpolate_missing_data_3d_spline spline data_3d missing_index w
  = (copy_world w cells (stdout w), Ok (copy_array w data_3d)).
Proof.
  intros Hdim. rewrite run_unfold, (locations_empty _ _ Hdim). reflexivity.
Qed.

Lemma run_no_samples :
  0 < x_dim data_3d -> 0 < y_dim data_3d ->
  valid_indices (time_steps data_3d) missing_index = [] ->
  interpolate_missing_data_3d_spline spline data_3d missing_index w
  = (copy_world w cells (stdout w), Raise IndexError).
Proof.
  intros HX HY Hvi. rewrite run_unfold.
  destruct (locations_nonempty _ _ HX HY) as [l ->].
  rewrite (loop_raise IndexError); [reflexivity |].
  intros x y. apply body_no_samples. exact Hvi.
Qed.

Lemma run_skip :
  length (valid_indices (time_steps data_3d) missing_index) = 1 ->
  interpolate_missing_data_3d_spline spline data_3d missing_index w
  = (copy_world w cells
       (stdout w ++ ((fun p => skip_message p.1 p.2)
                       <$> locations (x_dim data_3d) (y_dim data_3d))),
     Ok (copy_array w data_3d)).
Proof.
  intros Hn. rewrite run_unfold, (loop_skip _ _ _ Hn). reflexivity.
Qed.

Lemma run_too_few :
  0 < x_dim data_3d -> 0 < y_dim data_3d ->
  2 <= length (valid_indices (time_steps data_3d) missing_index) < 4 ->
  interpolate_missing_data_3d_spline spline data_3d missing_index w
  = (copy_world w cells (stdout w), Raise ValueError).
Proof.
  intros HX HY Hn. rewrite run_unfold.
  destruct (locations_nonempty _ _ HX HY) as [l ->].
  rewrite (loop_raise ValueError); [reflexivity |].
  intros x y. apply body_too_few. exact Hn.
Qed.

Lemma run_bad_index :
  0 < x_dim data_3d -> 0 < y_dim data_3d ->
  4 <= length (valid_indices (time_steps data_3d) missing_index) ->
  normalize_index (time_steps data_3d) missing_index = None ->
  interpolate_missing_data_3d_spline spline data_3d missing_index w
  = (copy_world w cells (stdout w), Raise IndexError).
Proof.
  intros HX HY Hn Hidx. rewrite run_unfold.
  destruct (locations_nonempty _ _ HX HY) as [l ->].
  rewrite (loop_raise IndexError); [reflexivity |].
  intros x y. apply body_bad_index; assumption.
Qed.

Lemma run_fit (t : nat) :
  4 <= length (valid_indices (time_steps data_3d) missing_index) ->
  normalize_index (time_steps data_3d) missing_index = Some t ->
  interpolate_missing_data_3d_spline spline data_3d missing_index w
  = (copy_world w (foldl (write_fit spline w data_3d missing_index t) cells (locations (x_dim data_3d) (y_dim data_3d)))
       (stdout w),
     Ok (copy_array w data_3d)).
Proof.
  intros Hn Hidx. rewrite run_unfold, (loop_fit t _ _ _ Hn Hidx); [reflexivity |].
  apply Forall_forall. intros [x y] Hin. apply elem_of_locations in Hin. exact Hin.
Qed.

(** The buffer after the writes. *)
Lemma length_written (t : nat) (l : list (nat * nat)) (buf : list float) :
  length (foldl (write_fit spline w data_3d missing_index t) buf l) = length buf.
Proof.
  revert buf. induction l as [| p l IH]; intros buf; [reflexivity |].
  simpl. rewrite IH. unfold write_fit. apply length_insert.
Qed.

Lemma written_frame (t : nat) (l : list (nat * nat)) (buf : list float) (o : nat) :
  Forall (fun p => o <> offset data_3d t p.1 p.2) l ->
  foldl (write_fit spline w data_3d missing_index t) buf l !! o = buf !! o.
Proof.
  revert buf. induction l as [| p l IH]; intros buf Hne; [reflexivity |].
  apply Forall_cons_1 in Hne as [Hp Hne]. simpl.
  rewrite (IH _ Hne). unfold write_fit.
  apply list_lookup_insert_ne. congruence.
Qed.

Lemma written_cell (t : nat) (l : list (nat * nat)) (buf : list float) (x y : nat) :
  Forall (fun p => p.1 < x_dim data_3d /\ p.2 < y_dim data_3d) l ->
  (x, y) ∈ l ->
  offset data_3d t x y < length buf ->
  foldl (write_fit spline w data_3d missing_index t) buf l !! offset data_3d t x y
  = Some (fitted spline (time_series_at w data_3d x y) missing_index).
Proof.
  revert buf. induction l as [| p l IH]; intros buf Hall Hin Hlt.
  - apply elem_of_nil in Hin. contradiction.
  - apply Forall_cons_1 in Hall as [Hp Hall]. simpl.
    destruct (decide ((x, y) ∈ l)) as [Hl | Hl].
    + apply IH; [exact Hall | exact Hl |].
      unfold write_fit. rewrite length_insert. exact Hlt.
    + apply elem_of_cons in Hin as [<- | Hin]; [| contradiction].
      rewrite written_frame.
      * unfold write_fit. simpl. apply list_lookup_insert_eq. exact Hlt.
      * apply Forall_forall. intros [x' y'] Hin' Heq. simpl in Heq.
        rewrite Forall_forall in Hall. specialize (Hall _ Hin'). simpl in Hall, Hp.
        apply offset_inj in Heq as (_ & -> & ->); [contradiction | lia ..].
Qed.

End Run.

(** ** What a call leaves behind *)

Section Outcome.

Variable spline : list Z -> list float -> Z -> float.
Variables (w : world) (data_3d : ndarray) (missing_index : Z).
Hypothesis Hwf : array_wf w data_3d.

Lemma buffer_copy (buf : list float) (out : list string) :
  buffer (copy_world w buf out) (copy_array w data_3d) = buf.
Proof.
  unfold buffer, copy_world, copy_array. simpl.
  rewrite list_lookup_middle by reflexivity. reflexivity.
Qed.

Lemma getitem_copy (buf : list float) (out : list string) (t x y : nat) :
  getitem (copy_world w buf out) (copy_array w data_3d) t x y
  = default nan (buf !! offset data_3d t x y).
Proof. unfold getitem. rewrite buffer_copy. reflexivity. Qed.

Lemma getitem_input (cells : list float) (t x y : nat) :
  heap w !! base data_3d = Some cells ->
  getitem w data_3d t x y = default nan (cells !! offset data_3d t x y).
Proof. intros Hcells. unfold getitem, buffer. rewrite Hcells. reflexivity. Qed.

Lemma time_series_lookup (t x y : nat) :
  t < time_steps data_3d ->
  time_series_at w data_3d x y !! t = Some (getitem w data_3d t x y).
Proof.
  intros Ht. unfold time_series_at.
  rewrite list_lookup_fmap, lookup_seq_lt by exact Ht. reflexivity.
Qed.

(** Closes a case of [run_cases] in which the copy keeps the input's
    cells, from the equation [H] of the run. *)
Ltac cells_kept H :=
  eexists _, _, _; split; [apply H |];
  split; [reflexivity |]; split; [congruence | left; reflexivity].

(** Every run ends in the world of the copy: the heap of the start with one
    more buffer of the same length, which is the input's cells, or those
    cells after the writes of a completed loop. *)
Lemma run_cases (cells : list float) :
  heap w !! base data_3d = Some cells ->
  exists buf out r,
    interpolate_missing_data_3d_spline spline data_3d missing_index w
      = (copy_world w buf out, r)
    /\ length buf = length cells
    /\ (forall a, r = Ok a -> a = copy_array w data_3d)
    /\ (buf = cells
        \/ exists t, normalize_index (time_steps data_3d) missing_index = Some t
             /\ buf = foldl (write_fit spline w data_3d missing_index t) cells
                        (locations (x_dim data_3d) (y_dim data_3d))).
Proof.
  intros Hcells.
  destruct (decide (x_dim data_3d = 0 \/ y_dim data_3d = 0)) as [Hdim | Hdim].
  { cells_kept (run_empty spline w data_3d missing_index cells Hcells Hdim). }
  assert (0 < x_dim data_3d /\ 0 < y_dim data_3d) as [HX HY] by lia.
  destruct (length (valid_indices (time_steps data_3d) missing_index)) as [| [| n]] eqn:Hn.
  { apply nil_length_inv in Hn.
    cells_kept (run_no_samples spline w data_3d missing_index cells Hcells HX HY Hn). }
  { cells_kept (run_skip spline w data_3d missing_index cells Hcells Hn). }
  destruct (decide (S (S n) < 4)) as [Hfew | Hmany].
  { assert (2 <= length (valid_indices (time_steps data_3d) missing_index) < 4) as Hn'
      by lia.
    cells_kept (run_too_few spline w data_3d missing_index cells Hcells HX HY Hn'). }
  assert (4 <= length (valid_indices (time_steps data_3d) missing_index)) as Hn' by lia.
  destruct (normalize_index (time_steps data_3d) missing_index) as [t |] eqn:Hidx.
  - eexists _, _, _. split; [apply (run_fit spline w data_3d missing_index cells Hcells t Hn' Hidx) |].
    split; [apply length_written |]. split; [congruence |].
    right. exists t. split; reflexivity.
  - cells_kept (run_bad_index spline w data_3d missing_index cells Hcells HX HY Hn' Hidx).
Qed.

(** A cell of the returned array outside the written slice is the input's. *)
Lemma run_frame (w' : world) (out : ndarray) (t x y : nat) :
  interpolate_missing_data_3d_spline spline data_3d missing_index w = (w', Ok out) ->
  x < x_dim data_3d -> y < y_dim data_3d ->
  normalize_index (time_steps data_3d) missing_index <> Some t ->
  getitem w' out t x y = getitem w data_3d t x y.
Proof.
  intros Hrun Hx Hy Ht. destruct Hwf as (cells & Hcells & Hlen).
  destruct (run_cases cells Hcells) as (buf & so & r & Hrun' & _ & Hout & Hbuf).
  rewrite Hrun in Hrun'. injection Hrun' as -> <-.
  rewrite (Hout out eq_refl), getitem_copy, (getitem_input cells) by exact Hcells.
  destruct Hbuf as [-> | (t0 & Hidx & ->)]; [reflexivity |].
  rewrite written_frame; [reflexivity |].
  apply Forall_forall. intros [x' y'] Hin Heq. apply elem_of_locations in Hin.
  simpl in Heq. apply offset_inj in Heq as (-> & _ & _); [| lia ..].
  apply Ht. exact Hidx.
Qed.

(** With at least four valid samples and an index Python accepts, the call
    returns and the written slice holds the fitted values. *)
Lemma run_fitted (t : nat) :
  4 <= length (valid_indices (time_steps data_3d) missing_index) ->
  normalize_index (time_steps data_3d) missing_index = Some t ->
  exists w', interpolate_missing_data_3d_spline spline data_3d missing_index w
               = (w', Ok (copy_array w data_3d))
    /\ stdout w' = stdout w
    /\ forall x y, x < x_dim data_3d -> y < y_dim data_3d ->
         getitem w' (copy_array w data_3d) t x y
         = fitted spline (time_series_at w data_3d x y) missing_index.
Proof.
  intros Hn Hidx. destruct Hwf as (cells & Hcells & Hlen).
  eexists. split; [apply (run_fit spline w _ _ _ Hcells t Hn Hidx) |].
  split; [reflexivity |].
  intros x y Hx Hy. rewrite getitem_copy, written_cell; [reflexivity | | |].
  - apply Forall_forall. intros [x' y'] Hin. apply elem_of_locations in Hin. exact Hin.
  - apply elem_of_locations. lia.
  - rewrite Hlen. apply offset_bound; [| exact Hx | exact Hy].
    eapply normalize_index_bound. exact Hidx.
Qed.

End Outcome.

Lemma samples_count_valid (T : nat) (idx : Z) :
  (0 <= idx < Z.of_nat T)%Z -> length (valid_indices T idx) = T - 1.
Proof.
  intros Hidx. rewrite length_valid_indices, bool_decide_eq_true_2 by exact Hidx.
  reflexivity.
Qed.

Lemma samples_count_invalid (T : nat) (idx : Z) :
  ~ (0 <= idx < Z.of_nat T)%Z -> length (valid_indices T idx) = T.
Proof.
  intros Hidx. rewrite length_valid_indices, bool_decide_eq_false_2 by exact Hidx.
  reflexivity.
Qed.

Lemma run_returns_copy spline (w : world) (data_3d : ndarray) (missing_index : Z)
    (w' : world) (out : ndarray) :
  array_wf w data_3d ->
  interpolate_missing_data_3d_spline spline data_3d missing_index w = (w', Ok out) ->
  out = copy_array w data_3d
  /\ exists buf, heap w' = heap w ++ [buf] /\ length buf = size data_3d.
Proof.
  intros (cells & Hcells & Hlen) Hrun.
  destruct (run_cases spline w data_3d missing_index cells Hcells)
    as (buf & so & r & Hrun' & Hbuf & Hout & _).
  rewrite Hrun in Hrun'. injection Hrun' as -> <-.
  split; [apply Hout; reflexivity |].
  exists buf. split; [reflexivity | congruence].
Qed.

Lemma run_ok_valid spline (w : world) (data_3d : ndarray) (missing_index : Z) :
  array_wf w data_3d ->
  (0 <= missing_index < Z.of_nat (time_steps data_3d))%Z ->
  5 <= time_steps data_3d ->
  is_ok (interpolate_missing_data_3d_spline spline data_3d missing_index w).2 = true.
Proof.
  intros Hwf Hidx HT.
  destruct (run_fitted spline w data_3d missing_index Hwf (Z.to_nat missing_index))
    as (w' & -> & _).
  - rewrite samples_count_valid by exact Hidx. lia.
  - apply normalize_index_in_range. exact Hidx.
  - reflexivity.
Qed.

(** A NaN among the valid samples makes the fitted value NaN. *)
Lemma fitted_nan spline (series : list float) (idx : Z) (t : nat) (v : float) :
  series !! t = Some v -> Z.of_nat t <> idx -> is_nan v = true ->
  fitted spline series idx = nan.
Proof.
  intros Hv Hne Hnan. unfold fitted.
  assert (existsb is_nan (valid_samples series idx) = true) as ->; [| reflexivity].
  apply existsb_exists. exists v. split; [| exact Hnan].
  unfold valid_samples. apply list_elem_of_In, list_elem_of_fmap.
  exists (Z.of_nat t). split.
  - rewrite Nat2Z.id, Hv. reflexivity.
  - apply elem_of_valid_indices. apply lookup_lt_Some in Hv. lia.
Qed.

(** * The claims *)

(** C1 (the code departs from the claim): on a volume with three time
    steps and [missing_index = 1] the two valid samples are those of time
    indices 0 and 2, the guard [len(valid_data_points) >= 2] lets the fit
    proceed, and [interp1d(kind='cubic')] refuses two samples: the call
    raises [ValueError] instead of returning the value on the line through
    the two samples.  Nothing was printed or written. *)
Theorem two_valid_samples_raise spline (w : world) (data_3d : ndarray) :
  array_wf w data_3d ->
  time_steps data_3d = 3 ->
  0 < x_dim data_3d -> 0 < y_dim data_3d ->
  valid_indices (time_steps data_3d) 1 = [0; 2]%Z
  /\ interpolate_missing_data_3d_spline spline data_3d 1 w
     = (copy_world w (buffer w data_3d) (stdout w), Raise ValueError).
Proof.
  intros (cells & Hcells & _) HT HX HY.
  split; [rewrite HT; reflexivity |].
  unfold buffer. rewrite Hcells. simpl default.
  apply (run_too_few spline w data_3d 1%Z cells Hcells HX HY).
  rewrite samples_count_valid by lia. lia.
Qed.

Lemma two_valid_samples_raise_witness :
  valid_indices 3 1 = [0; 2]%Z
  /\ interpolate_missing_data_3d_spline polynomial_core (array_of 3 1 1) 1
       (world_of [1; 2; 3]%float)
     = (World [[1; 2; 3]%float; [1; 2; 3]%float] [], Raise ValueError).
Proof.
  apply (two_valid_samples_raise polynomial_core (world_of [1; 2; 3]%float) (array_of 3 1 1)).
  - exists [1; 2; 3]%float. split; reflexivity.
  - reflexivity.
  - simpl. lia.
  - simpl. lia.
Defined.

(** C4 (the code departs from the claim): on a volume with a single time
    step and [missing_index = 0] no location has a valid sample;
    [np.array([])] is a float64 array, indexing the time series with it
    raises [IndexError], and the call fails at the first location before the
    guard: the skip branch is not reached and no diagnostic is printed. *)
Theorem no_valid_sample_raises spline (w : world) (data_3d : ndarray) :
  array_wf w data_3d ->
  time_steps data_3d = 1 ->
  0 < x_dim data_3d -> 0 < y_dim data_3d ->
  valid_indices (time_steps data_3d) 0 = []
  /\ interpolate_missing_data_3d_spline spline data_3d 0 w
     = (copy_world w (buffer w data_3d) (stdout w), Raise IndexError).
Proof.
  intros (cells & Hcells & _) HT HX HY.
  assert (valid_indices (time_steps data_3d) 0 = []) as Hvi by (rewrite HT; reflexivity).
  split; [exact Hvi |].
  unfold buffer. rewrite Hcells. simpl default.
  apply (run_no_samples spline w data_3d 0%Z cells Hcells HX HY Hvi).
Qed.

Lemma no_valid_sample_raises_witness :
  valid_indices 1 0 = []
  /\ interpolate_missing_data_3d_spline polynomial_core (array_of 1 1 1) 0
       (world_of [5]%float)
     = (World [[5]%float; [5]%float] [], Raise IndexError).
Proof.
  apply (no_valid_sample_raises polynomial_core (world_of [5]%float) (array_of 1 1 1)).
  - exists [5]%float. split; reflexivity.
  - reflexivity.
  - simpl. lia.
  - simpl. lia.
Defined.

(** C5: for a well-formed volume and [missing_index] in [[0, T)], the array
    the call returns has the shape [(T, X, Y)] of the input and a buffer of
    that size; with five time steps or more the call does return. *)
Theorem shape_preserved spline (w : world) (data_3d : ndarray) (missing_index : Z) :
  array_wf w data_3d ->
  (0 <= missing_index < Z.of_nat (time_steps data_3d))%Z ->
  (5 <= time_steps data_3d ->
   is_ok (interpolate_missing_data_3d_spline spline data_3d missing_index w).2 = true)
  /\ forall w' out,
       interpolate_missing_data_3d_spline spline data_3d missing_index w = (w', Ok out) ->
       shape out = shape data_3d /\ array_wf w' out.
Proof.
  intros Hwf Hidx. split; [apply run_ok_valid; assumption |].
  intros w' out Hrun.
  destruct (run_returns_copy spline w data_3d missing_index w' out Hwf Hrun)
    as (-> & buf & Hheap & Hlen).
  split; [reflexivity |].
  exists buf. split; [| exact Hlen].
  unfold copy_array. simpl. rewrite Hheap. apply list_lookup_middle. reflexivity.
Qed.

Lemma shape_preserved_witness :
  (5 <= 5 ->
   is_ok (interpolate_missing_data_3d_spline polynomial_core (array_of 5 1 1) 2
            (world_of cubic5)).2 = true)
  /\ forall w' out,
       interpolate_missing_data_3d_spline polynomial_core (array_of 5 1 1) 2
         (world_of cubic5) = (w', Ok out) ->
       shape out = (5, 1, 1) /\ array_wf w' out.
Proof.
  apply (shape_preserved polynomial_core (world_of cubic5) (array_of 5 1 1) 2).
  - exists cubic5. split; reflexivity.
  - simpl. lia.
Defined.

(** C3: for a well-formed volume, [missing_index] in [[0, T)] and every
    time index [t] other than [missing_index], slice [t] of the returned
    array is cell for cell the input's slice [t]; with five time steps or
    more the call does return. *)
Theorem other_slices_unchanged spline (w : world) (data_3d : ndarray) (missing_index : Z) :
  array_wf w data_3d ->
  (0 <= missing_index < Z.of_nat (time_steps data_3d))%Z ->
  (5 <= time_steps data_3d ->
   is_ok (interpolate_missing_data_3d_spline spline data_3d missing_index w).2 = true)
  /\ forall w' out,
       interpolate_missing_data_3d_spline spline data_3d missing_index w = (w', Ok out) ->
       forall t, t < time_steps data_3d -> Z.of_nat t <> missing_index ->
         time_slice w' out t = time_slice w data_3d t.
Proof.
  intros Hwf Hidx. split; [apply run_ok_valid; assumption |].
  intros w' out Hrun t Ht Hne.
  destruct (run_returns_copy spline w data_3d missing_index w' out Hwf Hrun) as (-> & _).
  unfold time_slice. simpl x_dim. simpl y_dim.
  apply Forall_fmap_ext_1, Forall_forall. intros [x y] Hin.
  apply elem_of_locations in Hin as [Hx Hy]. simpl.
  apply (run_frame spline w data_3d missing_index Hwf w' _ t x y Hrun Hx Hy).
  rewrite normalize_index_in_range by exact Hidx. intros [= Heq]. lia.
Qed.

Lemma other_slices_unchanged_witness :
  (5 <= 5 ->
   is_ok (interpolate_missing_data_3d_spline polynomial_core (array_of 5 1 1) 2
            (world_of cubic5)).2 = true)
  /\ forall w' out,
       interpolate_missing_data_3d_spline polynomial_core (array_of 5 1 1) 2
         (world_of cubic5) = (w', Ok out) ->
       forall t, t < 5 -> Z.of_nat t <> 2%Z ->
         time_slice w' out t = time_slice (world_of cubic5) (array_of 5 1 1) t.
Proof.
  apply (other_slices_unchanged polynomial_core (world_of cubic5) (array_of 5 1 1) 2).
  - exists cubic5. split; reflexivity.
  - simpl. lia.
Defined.

(** The cell the call returns at [(missing_index, x, y)] is [cell_outcome]
    of the location's time series. *)
Lemma output_cell_outcome spline (w : world) (data_3d : ndarray) (missing_index : Z)
    (x y : nat) :
  array_wf w data_3d ->
  (0 <= missing_index < Z.of_nat (time_steps data_3d))%Z ->
  x < x_dim data_3d -> y < y_dim data_3d ->
  output_cell spline data_3d missing_index w x y
  = cell_outcome spline (time_series_at w data_3d x y) missing_index.
Proof.
  intros Hwf Hidx Hx Hy. pose proof Hwf as (cells & Hcells & Hlen).
  unfold output_cell, cell_outcome. rewrite length_time_series.
  assert (0 < x_dim data_3d /\ 0 < y_dim data_3d) as [HX HY] by lia.
  destruct (length (valid_indices (time_steps data_3d) missing_index))
    as [| [| n]] eqn:Hn.
  - apply nil_length_inv in Hn.
    rewrite (run_no_samples spline w _ _ _ Hcells HX HY Hn). reflexivity.
  - rewrite (run_skip spline w _ _ _ Hcells Hn). simpl result_map.
    rewrite getitem_copy, time_series_lookup by lia.
    rewrite (getitem_input w data_3d cells) by exact Hcells. reflexivity.
  - destruct (decide (S (S n) < 4)) as [Hfew | Hmany].
    + rewrite (run_too_few spline w _ _ _ Hcells HX HY) by lia.
      destruct n as [| [| n]]; [reflexivity | reflexivity | lia].
    + destruct (run_fitted spline w data_3d missing_index Hwf (Z.to_nat missing_index))
        as (w' & -> & _ & Hcell).
      * lia.
      * apply normalize_index_in_range. exact Hidx.
      * simpl result_map. rewrite (Hcell x y Hx Hy).
        destruct n as [| [| n]]; [lia | lia | reflexivity].
Qed.

(** C8: the value returned at [(missing_index, x, y)] is a function of the
    time series at [(x, y)] and of [missing_index]: two well-formed volumes
    (of any spatial extent and any other content) that agree on that time
    series give the same outcome at that cell, and with five time steps or
    more that outcome is the value fitted to the series. *)
Theorem location_independence spline (w1 w2 : world) (a1 a2 : ndarray)
    (missing_index : Z) (x y : nat) :
  array_wf w1 a1 -> array_wf w2 a2 ->
  (0 <= missing_index < Z.of_nat (time_steps a1))%Z ->
  x < x_dim a1 -> y < y_dim a1 -> x < x_dim a2 -> y < y_dim a2 ->
  time_series_at w1 a1 x y = time_series_at w2 a2 x y ->
  output_cell spline a1 missing_index w1 x y = output_cell spline a2 missing_index w2 x y
  /\ (5 <= time_steps a1 ->
      output_cell spline a1 missing_index w1 x y
      = Ok (fitted spline (time_series_at w1 a1 x y) missing_index)).
Proof.
  intros Hwf1 Hwf2 Hidx Hx1 Hy1 Hx2 Hy2 Hseries.
  assert (time_steps a2 = time_steps a1) as HT.
  { rewrite <- (length_time_series w1 a1 x y), <- (length_time_series w2 a2 x y).
    rewrite Hseries. reflexivity. }
  rewrite !output_cell_outcome by (assumption || lia).
  split; [rewrite Hseries; reflexivity |].
  intros HT5. unfold cell_outcome.
  rewrite length_time_series, samples_count_valid by exact Hidx.
  destruct (time_steps a1) as [| [| [| [| [| n]]]]]; try lia. reflexivity.
Qed.

Lemma location_independence_witness :
  output_cell polynomial_core (array_of 5 1 2) 2 (world_of wide5) 0 0
  = output_cell polynomial_core (array_of 5 2 1) 2 (world_of tall5) 0 0
  /\ (5 <= 5 ->
      output_cell polynomial_core (array_of 5 1 2) 2 (world_of wide5) 0 0
      = Ok (fitted polynomial_core
              (time_series_at (world_of wide5) (array_of 5 1 2) 0 0) 2)).
Proof.
  apply (location_independence polynomial_core (world_of wide5) (world_of tall5)
           (array_of 5 1 2) (array_of 5 2 1) 2 0 0).
  - exists wide5. split; reflexivity.
  - exists tall5. split; reflexivity.
  - simpl. lia.
  - simpl. lia.
  - simpl. lia.
  - simpl. lia.
  - simpl. lia.
  - reflexivity.
Defined.

(** C9: on a well-formed volume with at least one location and
    [missing_index] in [[0, T)], three or four time steps leave two or three
    valid samples, the guard passes, the cubic interpolator refuses them and
    the whole call raises [ValueError].  A call that returns has [T <= 2] or
    [T >= 5]; with [T = 2] every location has one sample and is skipped, with
    [T >= 5] every location has at least four, and in both cases the call
    does return. *)
Theorem short_series_rejected spline (w : world) (data_3d : ndarray) (missing_index : Z) :
  array_wf w data_3d ->
  0 < x_dim data_3d -> 0 < y_dim data_3d ->
  (0 <= missing_index < Z.of_nat (time_steps data_3d))%Z ->
  (time_steps data_3d = 3 \/ time_steps data_3d = 4 ->
   2 <= length (valid_indices (time_steps data_3d) missing_index) <= 3
   /\ (interpolate_missing_data_3d_spline spline data_3d missing_index w).2
      = Raise ValueError)
  /\ (is_ok (interpolate_missing_data_3d_spline spline data_3d missing_index w).2 = true ->
      time_steps data_3d <= 2 \/ 5 <= time_steps data_3d)
  /\ (time_steps data_3d = 2 ->
      length (valid_indices (time_steps data_3d) missing_index) = 1
      /\ is_ok (interpolate_missing_data_3d_spline spline data_3d missing_index w).2 = true)
  /\ (5 <= time_steps data_3d ->
      4 <= length (valid_indices (time_steps data_3d) missing_index)
      /\ is_ok (interpolate_missing_data_3d_spline spline data_3d missing_index w).2 = true).
Proof.
  intros Hwf HX HY Hidx. pose proof Hwf as (cells & Hcells & Hlen).
  pose proof (samples_count_valid _ _ Hidx) as Hn.
  assert (time_steps data_3d = 3 \/ time_steps data_3d = 4 ->
          (interpolate_missing_data_3d_spline spline data_3d missing_index w).2
          = Raise ValueError) as Hraise.
  { intros HT. rewrite (run_too_few spline w _ _ _ Hcells HX HY) by lia. reflexivity. }
  split; [intros HT; split; [lia | exact (Hraise HT)] |].
  split.
  { intros Hok.
    destruct (decide (time_steps data_3d = 3 \/ time_steps data_3d = 4)) as [HT | HT];
      [| lia].
    rewrite (Hraise HT) in Hok. discriminate. }
  split.
  - intros HT. split; [lia |].
    rewrite (run_skip spline w _ _ _ Hcells) by lia. reflexivity.
  - intros HT. split; [lia |]. apply run_ok_valid; assumption.
Qed.

Lemma short_series_rejected_witness :
  (3 = 3 \/ 3 = 4 ->
   2 <= length (valid_indices 3 0) <= 3
   /\ (interpolate_missing_data_3d_spline polynomial_core (array_of 3 1 1) 0
         (world_of [1; 2; 3]%float)).2 = Raise ValueError)
  /\ (is_ok (interpolate_missing_data_3d_spline polynomial_core (array_of 3 1 1) 0
               (world_of [1; 2; 3]%float)).2 = true ->
      3 <= 2 \/ 5 <= 3)
  /\ (3 = 2 ->
      length (valid_indices 3 0) = 1
      /\ is_ok (interpolate_missing_data_3d_spline polynomial_core (array_of 3 1 1) 0
                  (world_of [1; 2; 3]%float)).2 = true)
  /\ (5 <= 3 ->
      4 <= length (valid_indices 3 0)
      /\ is_ok (interpolate_missing_data_3d_spline polynomial_core (array_of 3 1 1) 0
                  (world_of [1; 2; 3]%float)).2 = true).
Proof.
  apply (short_series_rejected polynomial_core (world_of [1; 2; 3]%float) (array_of 3 1 1) 0).
  - exists [1; 2; 3]%float. split; reflexivity.
  - simpl. lia.
  - simpl. lia.
  - simpl. lia.
Defined.

(** C2 (as amended): the function does not validate [missing_index].  On a
    well-formed volume, whatever the index and however the call ends, the
    heap of the start is still there with one buffer (the copy) added, so
    the input's cells are untouched.  With at least four time steps and at
    least one location, an int64 index outside [[-T, T)] makes the call
    raise NumPy's [IndexError] (at the write of the first location), and an
    index in [[-T, 0)] is not rejected: the call returns. *)
Theorem index_not_validated spline (w : world) (data_3d : ndarray) (missing_index : Z) :
  array_wf w data_3d ->
  ((exists buf,
      heap (interpolate_missing_data_3d_spline spline data_3d missing_index w).1
      = heap w ++ [buf])
   /\ buffer (interpolate_missing_data_3d_spline spline data_3d missing_index w).1 data_3d
      = buffer w data_3d)
  /\ (0 < x_dim data_3d -> 0 < y_dim data_3d -> 4 <= time_steps data_3d ->
      fits_int64 missing_index ->
      (missing_index < - Z.of_nat (time_steps data_3d)
       \/ Z.of_nat (time_steps data_3d) <= missing_index)%Z ->
      (interpolate_missing_data_3d_spline spline data_3d missing_index w).2
      = Raise IndexError)
  /\ (4 <= time_steps data_3d ->
      (- Z.of_nat (time_steps data_3d) <= missing_index < 0)%Z ->
      is_ok (interpolate_missing_data_3d_spline spline data_3d missing_index w).2 = true).
Proof.
  intros Hwf. pose proof Hwf as (cells & Hcells & Hlen).
  split; [| split].
  - destruct (run_cases spline w data_3d missing_index cells Hcells)
      as (buf & so & r & -> & _).
    split; [exists buf; reflexivity |].
    unfold buffer, copy_world. simpl.
    rewrite (lookup_app_l_Some _ _ _ _ Hcells), Hcells. reflexivity.
  - intros HX HY HT _ Hout.
    rewrite (run_bad_index spline w _ _ _ Hcells HX HY); [reflexivity | |].
    + rewrite samples_count_invalid by lia. exact HT.
    + apply normalize_index_outside. exact Hout.
  - intros HT Hneg.
    destruct (run_fitted spline w data_3d missing_index Hwf
                (Z.to_nat (Z.of_nat (time_steps data_3d) + missing_index)))
      as (w' & -> & _); [| | reflexivity].
    + rewrite samples_count_invalid by lia. exact HT.
    + apply normalize_index_negative. exact Hneg.
Qed.

Lemma index_not_validated_witness :
  ((exists buf,
      heap (interpolate_missing_data_3d_spline polynomial_core (array_of 5 1 1) 7
              (world_of cubic5)).1 = heap (world_of cubic5) ++ [buf])
   /\ buffer (interpolate_missing_data_3d_spline polynomial_core (array_of 5 1 1) 7
                (world_of cubic5)).1 (array_of 5 1 1)
      = buffer (world_of cubic5) (array_of 5 1 1))
  /\ (0 < 1 -> 0 < 1 -> 4 <= 5 -> fits_int64 7 -> (7 < - 5 \/ 5 <= 7)%Z ->
      (interpolate_missing_data_3d_spline polynomial_core (array_of 5 1 1) 7
         (world_of cubic5)).2 = Raise IndexError)
  /\ (4 <= 5 -> (- 5 <= 7 < 0)%Z ->
      is_ok (interpolate_missing_data_3d_spline polynomial_core (array_of 5 1 1) 7
               (world_of cubic5)).2 = true).
Proof.
  apply (index_not_validated polynomial_core (world_of cubic5) (array_of 5 1 1) 7).
  exists cubic5. split; reflexivity.
Defined.

(** C2, counterexample: with five time steps and [missing_index = -1] no
    error is raised; the call returns the copy. *)
Lemma negative_index_accepted :
  (interpolate_missing_data_3d_spline polynomial_core (array_of 5 1 1) (-1)
     (world_of cubic5)).2 = Ok (NdArray 1 5 1 1).
Proof. vm_compute. reflexivity. Qed.

(** C6 (the code departs from the claim): on a well-formed volume with
    three or four time steps and at least one location, with
    [missing_index] at a temporal boundary (0 or T - 1), the valid time
    indices all lie on one side of [missing_index], so the fit would have to
    be extrapolated; but there are only two or three of them, the guard
    [len(valid_data_points) >= 2] lets the fit proceed, and
    [interp1d(kind='cubic')] refuses them: the call raises [ValueError]
    instead of returning an extrapolated value, whatever the cells (finite
    ones included).  Nothing was printed or written.  This is the defect of
    C1, met at a boundary. *)
Theorem boundary_short_series_raises spline (w : world) (data_3d : ndarray)
    (missing_index : Z) :
  array_wf w data_3d ->
  time_steps data_3d = 3 \/ time_steps data_3d = 4 ->
  (missing_index = 0 \/ missing_index = Z.of_nat (time_steps data_3d) - 1)%Z ->
  0 < x_dim data_3d -> 0 < y_dim data_3d ->
  (Forall (fun i => (missing_index < i)%Z) (valid_indices (time_steps data_3d) missing_index)
   \/ Forall (fun i => (i < missing_index)%Z) (valid_indices (time_steps data_3d) missing_index))
  /\ 2 <= length (valid_indices (time_steps data_3d) missing_index) <= 3
  /\ interpolate_missing_data_3d_spline spline data_3d missing_index w
     = (copy_world w (buffer w data_3d) (stdout w), Raise ValueError).
Proof.
  intros (cells & Hcells & _) HT Hidx HX HY.
  assert (length (valid_indices (time_steps data_3d) missing_index)
          = time_steps data_3d - 1) as Hn by (apply samples_count_valid; lia).
  split; [| split; [lia |]].
  - destruct Hidx as [-> | ->]; [left | right];
      apply Forall_forall; intros i Hi; apply elem_of_valid_indices in Hi; lia.
  - unfold buffer. rewrite Hcells. simpl default.
    apply (run_too_few spline w data_3d missing_index cells Hcells HX HY). lia.
Qed.

Lemma boundary_short_series_raises_witness :
  (Forall (fun i => (0 < i)%Z) (valid_indices 4 0)
   \/ Forall (fun i => (i < 0)%Z) (valid_indices 4 0))
  /\ 2 <= length (valid_indices 4 0) <= 3
  /\ interpolate_missing_data_3d_spline polynomial_core (array_of 4 1 1) 0
       (world_of [0; 1; 8; 27]%float)
     = (World [[0; 1; 8; 27]%float; [0; 1; 8; 27]%float] [], Raise ValueError).
Proof.
  apply (boundary_short_series_raises polynomial_core (world_of [0; 1; 8; 27]%float)
           (array_of 4 1 1) 0).
  - exists [0; 1; 8; 27]%float. split; reflexivity.
  - right. reflexivity.
  - left. reflexivity.
  - simpl. lia.
  - simpl. lia.
Defined.

(** C7 (as amended): NaN samples are not filtered out.  At a location of a
    well-formed volume where some time step other than [missing_index]
    (taken in [[0, T)]) is NaN, the valid samples are still all the [T - 1]
    other time steps.  With five time steps or more the call returns and the
    cell at [(missing_index, x, y)] is NaN, whatever the input held there;
    only with two time steps (one sample, the location skipped) does the
    cell keep the input's value. *)
Theorem nan_samples_not_filtered spline (w : world) (data_3d : ndarray)
    (missing_index : Z) (x y : nat) :
  array_wf w data_3d ->
  (0 <= missing_index < Z.of_nat (time_steps data_3d))%Z ->
  x < x_dim data_3d -> y < y_dim data_3d ->
  (exists t, t < time_steps data_3d /\ Z.of_nat t <> missing_index
             /\ is_nan (getitem w data_3d t x y) = true) ->
  length (valid_samples (time_series_at w data_3d x y) missing_index)
  = time_steps data_3d - 1
  /\ (5 <= time_steps data_3d ->
      exists w',
        interpolate_missing_data_3d_spline spline data_3d missing_index w
        = (w', Ok (copy_array w data_3d))
        /\ getitem w' (copy_array w data_3d) (Z.to_nat missing_index) x y = nan)
  /\ (time_steps data_3d = 2 ->
      exists w',
        interpolate_missing_data_3d_spline spline data_3d missing_index w
        = (w', Ok (copy_array w data_3d))
        /\ getitem w' (copy_array w data_3d) (Z.to_nat missing_index) x y
           = getitem w data_3d (Z.to_nat missing_index) x y).
Proof.
  intros Hwf Hidx Hx Hy (t & Ht & Hne & Hnan).
  pose proof Hwf as (cells & Hcells & Hlen).
  split; [| split].
  - rewrite length_valid_samples. apply samples_count_valid. exact Hidx.
  - intros HT.
    destruct (run_fitted spline w data_3d missing_index Hwf (Z.to_nat missing_index))
      as (w' & Hrun & _ & Hcell).
    + rewrite samples_count_valid by exact Hidx. lia.
    + apply normalize_index_in_range. exact Hidx.
    + exists w'. split; [exact Hrun |].
      rewrite (Hcell x y Hx Hy).
      apply (fitted_nan spline _ _ t (getitem w data_3d t x y));
        [apply time_series_lookup; exact Ht | exact Hne | exact Hnan].
  - intros HT. eexists. split.
    + apply (run_skip spline w _ _ _ Hcells).
      rewrite samples_count_valid by exact Hidx. lia.
    + rewrite getitem_copy, (getitem_input w data_3d cells) by exact Hcells.
      reflexivity.
Qed.

Lemma nan_samples_not_filtered_witness :
  length (valid_samples (time_series_at (world_of gap5) (array_of 5 1 1) 0 0) 2) = 5 - 1
  /\ (5 <= 5 ->
      exists w',
        interpolate_missing_data_3d_spline polynomial_core (array_of 5 1 1) 2 (world_of gap5)
        = (w', Ok (copy_array (world_of gap5) (array_of 5 1 1)))
        /\ getitem w' (copy_array (world_of gap5) (array_of 5 1 1)) (Z.to_nat 2) 0 0 = nan)
  /\ (5 = 2 ->
      exists w',
        interpolate_missing_data_3d_spline polynomial_core (array_of 5 1 1) 2 (world_of gap5)
        = (w', Ok (copy_array (world_of gap5) (array_of 5 1 1)))
        /\ getitem w' (copy_array (world_of gap5) (array_of 5 1 1)) (Z.to_nat 2) 0 0
           = getitem (world_of gap5) (array_of 5 1 1) (Z.to_nat 2) 0 0).
Proof.
  apply (nan_samples_not_filtered polynomial_core (world_of gap5) (array_of 5 1 1) 2 0 0).
  - exists gap5. split; reflexivity.
  - simpl. lia.
  - simpl. lia.
  - simpl. lia.
  - exists 0. split; [simpl; lia |]. split; [lia | reflexivity].
Defined.

(** C7, counterexample: at a location whose time steps other than
    [missing_index = 2] are all NaN and whose input value at time index 2 is
    7, the call returns and the output at time index 2 is NaN, not 7. *)
Lemma nan_location_overwritten :
  getitem (world_of gap5) (array_of 5 1 1) 2 0 0 = 7%float
  /\ (interpolate_missing_data_3d_spline polynomial_core (array_of 5 1 1) 2
        (world_of gap5)).2 = Ok (NdArray 1 5 1 1)
  /\ getitem
       (interpolate_missing_data_3d_spline polynomial_core (array_of 5 1 1) 2
          (world_of gap5)).1
       (NdArray 1 5 1 1) 2 0 0 = nan.
Proof. vm_compute. repeat split; reflexivity. Qed.

(** C10 (as amended): for a negative [missing_index] in [[-T, 0)] on a
    well-formed volume, no time index is excluded: the valid indices are
    0 .. T - 1.  With four time steps or more the call returns, prints
    nothing, and at each location the cell of slice [T + missing_index]
    holds the interpolator's value at the coordinate [missing_index]
    (fitted through all [T] samples), every other cell being the input's.
    With one time step the single sample is too few: the call returns
    with every cell equal to the input's. *)
Theorem negative_index_wraps spline (w : world) (data_3d : ndarray) (missing_index : Z) :
  array_wf w data_3d ->
  (- Z.of_nat (time_steps data_3d) <= missing_index < 0)%Z ->
  valid_indices (time_steps data_3d) missing_index = Z.of_nat <$> seq 0 (time_steps data_3d)
  /\ (4 <= time_steps data_3d ->
      exists w',
        interpolate_missing_data_3d_spline spline data_3d missing_index w
        = (w', Ok (copy_array w data_3d))
        /\ stdout w' = stdout w
        /\ forall x y, x < x_dim data_3d -> y < y_dim data_3d ->
             getitem w' (copy_array w data_3d)
               (Z.to_nat (Z.of_nat (time_steps data_3d) + missing_index)) x y
             = fitted spline (time_series_at w data_3d x y) missing_index
             /\ forall t, t <> Z.to_nat (Z.of_nat (time_steps data_3d) + missing_index) ->
                  getitem w' (copy_array w data_3d) t x y = getitem w data_3d t x y)
  /\ (time_steps data_3d = 1 ->
      exists w',
        interpolate_missing_data_3d_spline spline data_3d missing_index w
        = (w', Ok (copy_array w data_3d))
        /\ forall t x y,
             getitem w' (copy_array w data_3d) t x y = getitem w data_3d t x y).
Proof.
  intros Hwf Hneg. pose proof Hwf as (cells & Hcells & Hlen).
  split; [apply valid_indices_out_of_range; lia |].
  split.
  - intros HT.
    destruct (run_fitted spline w data_3d missing_index Hwf
                (Z.to_nat (Z.of_nat (time_steps data_3d) + missing_index)))
      as (w' & Hrun & Hout & Hcell).
    + rewrite samples_count_invalid by lia. exact HT.
    + apply normalize_index_negative. exact Hneg.
    + exists w'. split; [exact Hrun |]. split; [exact Hout |].
      intros x y Hx Hy. split; [exact (Hcell x y Hx Hy) |].
      intros t Ht.
      apply (run_frame spline w data_3d missing_index Hwf w' _ t x y Hrun Hx Hy).
      rewrite normalize_index_negative by exact Hneg. congruence.
  - intros HT. eexists. split.
    + apply (run_skip spline w _ _ _ Hcells).
      rewrite samples_count_invalid by lia. exact HT.
    + intros t x y.
      rewrite getitem_copy, (getitem_input w data_3d cells) by exact Hcells.
      reflexivity.
Qed.

Lemma negative_index_wraps_witness :
  valid_indices 5 (-1) = Z.of_nat <$> seq 0 5
  /\ (4 <= 5 ->
      exists w',
        interpolate_missing_data_3d_spline polynomial_core (array_of 5 1 1) (-1)
          (world_of cubic5)
        = (w', Ok (copy_array (world_of cubic5) (array_of 5 1 1)))
        /\ stdout w' = stdout (world_of cubic5)
        /\ forall x y, x < 1 -> y < 1 ->
             getitem w' (copy_array (world_of cubic5) (array_of 5 1 1))
               (Z.to_nat (Z.of_nat 5 + -1)) x y
             = fitted polynomial_core
                 (time_series_at (world_of cubic5) (array_of 5 1 1) x y) (-1)
             /\ forall t, t <> Z.to_nat (Z.of_nat 5 + -1) ->
                  getitem w' (copy_array (world_of cubic5) (array_of 5 1 1)) t x y
                  = getitem (world_of cubic5) (array_of 5 1 1) t x y)
  /\ (5 = 1 ->
      exists w',
        interpolate_missing_data_3d_spline polynomial_core (array_of 5 1 1) (-1)
          (world_of cubic5)
        = (w', Ok (copy_array (world_of cubic5) (array_of 5 1 1)))
        /\ forall t x y,
             getitem w' (copy_array (world_of cubic5) (array_of 5 1 1)) t x y
             = getitem (world_of cubic5) (array_of 5 1 1) t x y).
Proof.
  apply (negative_index_wraps polynomial_core (world_of cubic5) (array_of 5 1 1) (-1)).
  - exists cubic5. split; reflexivity.
  - simpl. lia.
Defined.

(** C10, counterexample: one time step and [missing_index = -1]: the call
    returns, and slice [T + missing_index = 0] of the output is the input's
    slice 0; nothing was written there. *)
Lemma negative_index_single_step :
  (interpolate_missing_data_3d_spline polynomial_core (array_of 1 1 1) (-1)
     (world_of [5]%float)).2 = Ok (NdArray 1 1 1 1)
  /\ time_slice
       (interpolate_missing_data_3d_spline polynomial_core (array_of 1 1 1) (-1)
          (world_of [5]%float)).1
       (NdArray 1 1 1 1) 0
     = time_slice (world_of [5]%float) (array_of 1 1 1) 0.
Proof. vm_compute. split; reflexivity. Qed.

(** * Further properties *)

(** The skip rule where it is reached: on a well-formed volume whose
    locations have exactly one valid sample (two time steps and
    [missing_index] in [[0, 2)], or one time step and [missing_index]
    outside [[0, 1)]), the call returns the copy with the cells of the input,
    and has printed one line per location, in the order of the loops. *)
Theorem single_sample_skipped spline (w : world) (data_3d : ndarray) (missing_index : Z) :
  array_wf w data_3d ->
  length (valid_indices (time_steps data_3d) missing_index) = 1 ->
  interpolate_missing_data_3d_spline spline data_3d missing_index w
  = (World (heap w ++ [buffer w data_3d])
       (stdout w ++ ((fun p => skip_message p.1 p.2)
                       <$> locations (x_dim data_3d) (y_dim data_3d))),
     Ok (copy_array w data_3d)).
Proof.
  intros (cells & Hcells & _) Hn.
  rewrite (run_skip spline w _ _ _ Hcells Hn).
  unfold buffer. rewrite Hcells. reflexivity.
Qed.

Lemma single_sample_skipped_witness :
  interpolate_missing_data_3d_spline polynomial_core (array_of 2 1 2) 1
    (world_of [1; 2; 3; 4]%float)
  = (World [[1; 2; 3; 4]%float; [1; 2; 3; 4]%float]
       ["Not enough valid data to interpolate at position (0, 0). Skipping...";
        "Not enough valid data to interpolate at position (0, 1). Skipping..."],
     Ok (NdArray 1 2 1 2)).
Proof.
  apply (single_sample_skipped polynomial_core (world_of [1; 2; 3; 4]%float)
           (array_of 2 1 2) 1).
  - exists [1; 2; 3; 4]%float. split; reflexivity.
  - reflexivity.
Defined.

(** The valid samples of a location: for [missing_index] in [[0, T)] they
    are the [T - 1] other time indices, in ascending order, each within the
    time axis. *)
Theorem valid_samples_count (T : nat) (missing_index : Z) :
  (0 <= missing_index < Z.of_nat T)%Z ->
  length (valid_indices T missing_index) = T - 1
  /\ increasing (valid_indices T missing_index) = true
  /\ forall i, i ∈ valid_indices T missing_index
              <-> (0 <= i < Z.of_nat T)%Z /\ i <> missing_index.
Proof.
  intros Hidx. split; [apply samples_count_valid; exact Hidx |].
  split; [apply valid_indices_increasing |].
  intros i. apply elem_of_valid_indices.
Qed.

Lemma valid_samples_count_witness :
  length (valid_indices 5 2) = 5 - 1
  /\ increasing (valid_indices 5 2) = true
  /\ forall i, i ∈ valid_indices 5 2 <-> (0 <= i < Z.of_nat 5)%Z /\ i <> 2%Z.
Proof. apply (valid_samples_count 5 2). lia. Defined.

(** How a call ends is read off the shape and the index, for an index that
    NumPy holds as an int64: it returns on an empty grid; otherwise it
    raises [IndexError] with no valid sample, returns with one (every
    location skipped), raises [ValueError] with two or three, and with four
    or more returns when [missing_index] is in [[-T, T)] and raises
    [IndexError] when it is not.  The cells play no part.  (Beyond int64
    the code fails on the integer itself, with exceptions of other classes;
    the table says nothing there.) *)
Theorem call_kind_table spline (w : world) (data_3d : ndarray) (missing_index : Z) :
  array_wf w data_3d ->
  fits_int64 missing_index ->
  result_map (fun _ => tt)
    (interpolate_missing_data_3d_spline spline data_3d missing_index w).2
  = call_kind (time_steps data_3d) (x_dim data_3d) (y_dim data_3d) missing_index.
Proof.
  intros (cells & Hcells & _) _. unfold call_kind, samples_per_location.
  rewrite <- length_valid_indices. case_bool_decide as Hdim.
  { rewrite (run_empty spline w _ _ _ Hcells Hdim). reflexivity. }
  assert (0 < x_dim data_3d /\ 0 < y_dim data_3d) as [HX HY] by lia.
  destruct (length (valid_indices (time_steps data_3d) missing_index))
    as [| [| [| [| n]]]] eqn:Hn.
  - apply nil_length_inv in Hn.
    rewrite (run_no_samples spline w _ _ _ Hcells HX HY Hn). reflexivity.
  - rewrite (run_skip spline w _ _ _ Hcells Hn). reflexivity.
  - rewrite (run_too_few spline w _ _ _ Hcells HX HY) by lia. reflexivity.
  - rewrite (run_too_few spline w _ _ _ Hcells HX HY) by lia. reflexivity.
  - destruct (normalize_index (time_steps data_3d) missing_index) as [t |] eqn:Hidx.
    + rewrite (run_fit spline w _ _ _ Hcells t) by (lia || exact Hidx). reflexivity.
    + rewrite (run_bad_index spline w _ _ _ Hcells HX HY) by (lia || exact Hidx).
      reflexivity.
Qed.

Lemma call_kind_table_witness :
  result_map (fun _ => tt)
    (interpolate_missing_data_3d_spline polynomial_core (array_of 5 1 2) 9
       (world_of wide5)).2
  = call_kind 5 1 2 9.
Proof.
  apply (call_kind_table polynomial_core (world_of wide5) (array_of 5 1 2) 9).
  - exists wide5. split; reflexivity.
  - unfold fits_int64. lia.
Defined.

(** The diagnostics are all or nothing: a call prints exactly when every
    location has one valid sample, and then one line per location in the
    order of the loops; a call that fits, or that raises, prints nothing. *)
Theorem diagnostics_all_or_nothing spline (w : world) (data_3d : ndarray)
    (missing_index : Z) :
  array_wf w data_3d ->
  stdout (interpolate_missing_data_3d_spline spline data_3d missing_index w).1
  = stdout w
    ++ (if bool_decide (samples_per_location (time_steps data_3d) missing_index = 1)
        then (fun p => skip_message p.1 p.2)
               <$> locations (x_dim data_3d) (y_dim data_3d)
        else []).
Proof.
  intros (cells & Hcells & _). unfold samples_per_location.
  rewrite <- length_valid_indices.
  destruct (decide (x_dim data_3d = 0 \/ y_dim data_3d = 0)) as [Hdim | Hdim].
  { rewrite (run_empty spline w _ _ _ Hcells Hdim), (locations_empty _ _ Hdim).
    simpl. case_bool_decide; rewrite app_nil_r; reflexivity. }
  assert (0 < x_dim data_3d /\ 0 < y_dim data_3d) as [HX HY] by lia.
  destruct (length (valid_indices (time_steps data_3d) missing_index))
    as [| [| n]] eqn:Hn.
  - apply nil_length_inv in Hn.
    rewrite (run_no_samples spline w _ _ _ Hcells HX HY Hn).
    rewrite bool_decide_eq_false_2 by lia. simpl. rewrite app_nil_r. reflexivity.
  - rewrite (run_skip spline w _ _ _ Hcells Hn).
    rewrite bool_decide_eq_true_2 by reflexivity. reflexivity.
  - rewrite bool_decide_eq_false_2 by lia. rewrite app_nil_r.
    destruct (decide (S (S n) < 4)) as [Hfew | Hmany].
    { rewrite (run_too_few spline w _ _ _ Hcells HX HY) by lia. reflexivity. }
    destruct (normalize_index (time_steps data_3d) missing_index) as [t |] eqn:Hidx.
    + rewrite (run_fit spline w _ _ _ Hcells t) by (lia || exact Hidx). reflexivity.
    + rewrite (run_bad_index spline w _ _ _ Hcells HX HY) by (lia || exact Hidx).
      reflexivity.
Qed.

Lemma diagnostics_all_or_nothing_witness :
  stdout (interpolate_missing_data_3d_spline polynomial_core (array_of 2 1 2) 0
            (world_of [1; 2; 3; 4]%float)).1
  = stdout (world_of [1; 2; 3; 4]%float)
    ++ (if bool_decide (samples_per_location 2 0 = 1)
        then (fun p => skip_message p.1 p.2) <$> locations 1 2
        else []).
Proof.
  apply (diagnostics_all_or_nothing polynomial_core (world_of [1; 2; 3; 4]%float)
           (array_of 2 1 2) 0).
  exists [1; 2; 3; 4]%float. split; reflexivity.
Defined.

(** The fit of a location looks at the series away from [missing_index]
    only. *)
Lemma fitted_ext spline (series1 series2 : list float) (idx : Z) :
  length series1 = length series2 ->
  (forall t, Z.of_nat t <> idx -> series1 !! t = series2 !! t) ->
  fitted spline series1 idx = fitted spline series2 idx.
Proof.
  intros Hlen Hagree.
  assert (valid_samples series1 idx = valid_samples series2 idx) as Hsamples.
  { unfold valid_samples. rewrite Hlen.
    apply Forall_fmap_ext_1, Forall_forall. intros i Hi.
    apply elem_of_valid_indices in Hi. rewrite (Hagree (Z.to_nat i)) by lia.
    reflexivity. }
  unfold fitted. rewrite Hsamples, Hlen. reflexivity.
Qed.

Lemma series_agree (w1 w2 : world) (a1 a2 : ndarray) (idx : Z) (x y : nat) :
  time_steps a1 = time_steps a2 ->
  (forall t, t < time_steps a1 -> Z.of_nat t <> idx ->
             getitem w1 a1 t x y = getitem w2 a2 t x y) ->
  forall t, Z.of_nat t <> idx ->
            time_series_at w1 a1 x y !! t = time_series_at w2 a2 x y !! t.
Proof.
  intros HT Hagree t Hne.
  destruct (decide (t < time_steps a1)) as [Ht | Ht].
  - rewrite !time_series_lookup by lia. rewrite (Hagree t Ht Hne). reflexivity.
  - rewrite !lookup_ge_None_2; [reflexivity | |];
      rewrite length_time_series; lia.
Qed.

Lemma copy_wf spline (w : world) (data_3d : ndarray) (missing_index : Z)
    (w' : world) (out : ndarray) :
  array_wf w data_3d ->
  interpolate_missing_data_3d_spline spline data_3d missing_index w = (w', Ok out) ->
  array_wf w' out.
Proof.
  intros Hwf Hrun.
  destruct (run_returns_copy spline w data_3d missing_index w' out Hwf Hrun)
    as (-> & buf & Hheap & Hlen).
  exists buf. split; [| exact Hlen].
  unfold copy_array. simpl. rewrite Hheap. apply list_lookup_middle. reflexivity.
Qed.

(** With five time steps or more and [missing_index] in [[0, T)], what the
    input holds in the slice to reconstruct has no influence: two
    well-formed volumes of one shape that agree on every other slice give
    results that agree on every cell. *)
Theorem missing_slice_ignored spline (w1 w2 : world) (a1 a2 : ndarray)
    (missing_index : Z) :
  array_wf w1 a1 -> array_wf w2 a2 ->
  shape a1 = shape a2 ->
  (0 <= missing_index < Z.of_nat (time_steps a1))%Z ->
  5 <= time_steps a1 ->
  (forall t x y, t < time_steps a1 -> x < x_dim a1 -> y < y_dim a1 ->
     Z.of_nat t <> missing_index ->
     getitem w1 a1 t x y = getitem w2 a2 t x y) ->
  exists w1' w2',
    interpolate_missing_data_3d_spline spline a1 missing_index w1
    = (w1', Ok (copy_array w1 a1))
    /\ interpolate_missing_data_3d_spline spline a2 missing_index w2
       = (w2', Ok (copy_array w2 a2))
    /\ forall t x y, t < time_steps a1 -> x < x_dim a1 -> y < y_dim a1 ->
         getitem w1' (copy_array w1 a1) t x y = getitem w2' (copy_array w2 a2) t x y.
Proof.
  intros Hwf1 Hwf2 Hshape Hidx HT Hagree.
  unfold shape in Hshape. injection Hshape as HTeq HXeq HYeq.
  destruct (run_fitted spline w1 a1 missing_index Hwf1 (Z.to_nat missing_index))
    as (w1' & Hrun1 & _ & Hcell1).
  { rewrite samples_count_valid by exact Hidx. lia. }
  { apply normalize_index_in_range. exact Hidx. }
  destruct (run_fitted spline w2 a2 missing_index Hwf2 (Z.to_nat missing_index))
    as (w2' & Hrun2 & _ & Hcell2).
  { rewrite samples_count_valid by lia. lia. }
  { apply normalize_index_in_range. lia. }
  exists w1', w2'. split; [exact Hrun1 |]. split; [exact Hrun2 |].
  intros t x y Ht Hx Hy.
  destruct (decide (t = Z.to_nat missing_index)) as [-> | Hne].
  - rewrite Hcell1, Hcell2 by lia.
    apply fitted_ext.
    + rewrite !length_time_series. exact HTeq.
    + apply series_agree; [exact HTeq |].
      intros t Ht' Hne. apply Hagree; assumption.
  - rewrite (run_frame spline w1 a1 missing_index Hwf1 w1' _ t x y Hrun1 Hx Hy).
    + rewrite (run_frame spline w2 a2 missing_index Hwf2 w2' _ t x y Hrun2);
        [apply Hagree; [exact Ht | exact Hx | exact Hy | lia] | lia | lia |].
      rewrite normalize_index_in_range by lia. congruence.
    + rewrite normalize_index_in_range by lia. congruence.
Qed.

Lemma missing_slice_ignored_witness :
  exists w1' w2',
    interpolate_missing_data_3d_spline polynomial_core (array_of 5 1 1) 2
      (world_of cubic5)
    = (w1', Ok (copy_array (world_of cubic5) (array_of 5 1 1)))
    /\ interpolate_missing_data_3d_spline polynomial_core (array_of 5 1 1) 2
         (world_of cubic5_damaged)
       = (w2', Ok (copy_array (world_of cubic5_damaged) (array_of 5 1 1)))
    /\ forall t x y, t < 5 -> x < 1 -> y < 1 ->
         getitem w1' (copy_array (world_of cubic5) (array_of 5 1 1)) t x y
         = getitem w2' (copy_array (world_of cubic5_damaged) (array_of 5 1 1)) t x y.
Proof.
  apply (missing_slice_ignored polynomial_core (world_of cubic5) (world_of cubic5_damaged)
           (array_of 5 1 1) (array_of 5 1 1) 2).
  - exists cubic5. split; reflexivity.
  - exists cubic5_damaged. split; reflexivity.
  - reflexivity.
  - simpl. lia.
  - simpl. lia.
  - intros t x y Ht Hx Hy Hne. simpl in Ht, Hx, Hy.
    assert (x = 0) as -> by lia. assert (y = 0) as -> by lia.
    destruct t as [| [| [| [| [| t]]]]]; try reflexivity; lia.
Defined.

(** Reconstructing the same slice again changes nothing: with five time
    steps or more and [missing_index] in [[0, T)], the result of a second
    call on the result of the first has the cells of the first result. *)
Theorem interpolation_idempotent spline (w : world) (data_3d : ndarray)
    (missing_index : Z) :
  array_wf w data_3d ->
  (0 <= missing_index < Z.of_nat (time_steps data_3d))%Z ->
  5 <= time_steps data_3d ->
  exists w1 w2 once twice,
    interpolate_missing_data_3d_spline spline data_3d missing_index w = (w1, Ok once)
    /\ interpolate_missing_data_3d_spline spline once missing_index w1 = (w2, Ok twice)
    /\ shape twice = shape data_3d
    /\ forall t x y, x < x_dim data_3d -> y < y_dim data_3d ->
         getitem w2 twice t x y = getitem w1 once t x y.
Proof.
  intros Hwf Hidx HT.
  destruct (run_fitted spline w data_3d missing_index Hwf (Z.to_nat missing_index))
    as (w1 & Hrun1 & _ & Hcell1).
  { rewrite samples_count_valid by exact Hidx. lia. }
  { apply normalize_index_in_range. exact Hidx. }
  pose proof (copy_wf spline w data_3d missing_index w1 _ Hwf Hrun1) as Hwf1.
  destruct (run_fitted spline w1 (copy_array w data_3d) missing_index Hwf1
              (Z.to_nat missing_index))
    as (w2 & Hrun2 & _ & Hcell2).
  { simpl time_steps. rewrite samples_count_valid by exact Hidx. lia. }
  { apply normalize_index_in_range. exact Hidx. }
  exists w1, w2, (copy_array w data_3d), (copy_array w1 (copy_array w data_3d)).
  split; [exact Hrun1 |]. split; [exact Hrun2 |]. split; [reflexivity |].
  intros t x y Hx Hy.
  destruct (decide (t = Z.to_nat missing_index)) as [-> | Hne].
  - rewrite (Hcell2 x y Hx Hy), (Hcell1 x y Hx Hy).
    apply fitted_ext.
    + rewrite !length_time_series. reflexivity.
    + apply series_agree; [reflexivity |].
      intros t Ht Hne.
      apply (run_frame spline w data_3d missing_index Hwf w1 _ t x y Hrun1 Hx Hy).
      rewrite normalize_index_in_range by exact Hidx. intros [= Heq]. lia.
  - apply (run_frame spline w1 (copy_array w data_3d) missing_index Hwf1 w2 _ t x y
             Hrun2 Hx Hy).
    simpl time_steps. rewrite normalize_index_in_range by exact Hidx. congruence.
Qed.

Lemma interpolation_idempotent_witness :
  exists w1 w2 once twice,
    interpolate_missing_data_3d_spline polynomial_core (array_of 5 1 1) 2
      (world_of cubic5_damaged) = (w1, Ok once)
    /\ interpolate_missing_data_3d_spline polynomial_core once 2 w1 = (w2, Ok twice)
    /\ shape twice = shape (array_of 5 1 1)
    /\ forall t x y, x < 1 -> y < 1 ->
         getitem w2 twice t x y = getitem w1 once t x y.
Proof.
  apply (interpolation_idempotent polynomial_core (world_of cubic5_damaged)
           (array_of 5 1 1) 2).
  - exists cubic5_damaged. split; reflexivity.
  - simpl. lia.
  - simpl. lia.
Defined.

(** The array a call returns is a new object: its buffer is the one
    allocated by the call, at an address the heap of the start does not
    hold, so it shares no storage with the input. *)
Theorem result_is_fresh spline (w : world) (data_3d : ndarray) (missing_index : Z)
    (w' : world) (out : ndarray) :
  array_wf w data_3d ->
  interpolate_missing_data_3d_spline spline data_3d missing_index w = (w', Ok out) ->
  heap w !! base out = None
  /\ base out <> base data_3d
  /\ length (heap w') = S (length (heap w)).
Proof.
  intros Hwf Hrun.
  destruct (run_returns_copy spline w data_3d missing_index w' out Hwf Hrun)
    as (-> & buf & Hheap & _).
  destruct Hwf as (cells & Hcells & _). apply lookup_lt_Some in Hcells.
  unfold copy_array. simpl. split; [apply lookup_ge_None_2; lia |].
  split; [lia |]. rewrite Hheap, length_app. simpl. lia.
Qed.

Lemma result_is_fresh_witness :
  heap (world_of cubic5) !! base (NdArray 1 5 1 1) = None
  /\ base (NdArray 1 5 1 1) <> base (array_of 5 1 1)
  /\ length (heap (World [cubic5; [0; 1; 8; 27; 64]%float] []))
     = S (length (heap (world_of cubic5))).
Proof.
  apply (result_is_fresh polynomial_core (world_of cubic5) (array_of 5 1 1) 2).
  - exists cubic5. split; reflexivity.
  - vm_compute. reflexivity.
Defined.

(** * The expected file names *)

Lemma lookup_bind_blocks {A B} (f : A -> list B) (l : list A) (n j i : nat) :
  (forall x, length (f x) = n) -> i < n ->
  (l ≫= f) !! (j * n + i) = l !! j ≫= fun x => f x !! i.
Proof.
  intros Hlen Hi. revert j. induction l as [| x l IH]; intros j.
  - reflexivity.
  - rewrite bind_cons. destruct j as [| j].
    + simpl. rewrite lookup_app_l by (rewrite Hlen; exact Hi). reflexivity.
    + rewrite lookup_app_r by (rewrite Hlen; lia).
      rewrite Hlen. replace (S j * n + i - n) with (j * n + i) by lia.
      rewrite IH. reflexivity.
Qed.

Lemma length_bind_blocks {A B} (f : A -> list B) (l : list A) (n : nat) :
  (forall x, length (f x) = n) -> length (l ≫= f) = length l * n.
Proof.
  intros Hlen. induction l as [| x l IH]; [reflexivity |].
  rewrite bind_cons, length_app, Hlen, IH. simpl. lia.
Qed.

Lemma string_length_app (s t : string) :
  String.length (s +:+ t) = String.length s + String.length t.
Proof. induction s as [| c s IH]; simpl; [reflexivity | rewrite IH; reflexivity]. Qed.

Lemma string_app_inj_length (s1 s2 t1 t2 : string) :
  String.length t1 = String.length t2 ->
  s1 +:+ t1 = s2 +:+ t2 -> s1 = s2 /\ t1 = t2.
Proof.
  intros Hlen. revert s2. induction s1 as [| c s1 IH]; intros [| c' s2] Heq; simpl in Heq.
  - split; [reflexivity | exact Heq].
  - apply (f_equal String.length) in Heq.
    rewrite !string_length_app in Heq. simpl in Heq. lia.
  - apply (f_equal String.length) in Heq.
    rewrite !string_length_app in Heq. simpl in Heq. lia.
  - injection Heq as -> Heq. destruct (IH s2 Heq) as [-> ->]. split; reflexivity.
Qed.

Lemma month_cases (m : Z) :
  (1 <= m <= 12)%Z ->
  m ∈ [1; 2; 3; 4; 5; 6; 7; 8; 9; 10; 11; 12]%Z.
Proof.
  intros Hm.
  assert (m = 1 \/ m = 2 \/ m = 3 \/ m = 4 \/ m = 5 \/ m = 6 \/ m = 7 \/ m = 8
          \/ m = 9 \/ m = 10 \/ m = 11 \/ m = 12)%Z as Hcases by lia.
  repeat (destruct Hcases as [-> | Hcases]; [repeat constructor |]).
  subst m. repeat constructor.
Qed.

Lemma length_month_suffix (m : Z) :
  (1 <= m <= 12)%Z -> String.length ("_" +:+ format_02d m +:+ ".tif") = 7.
Proof.
  intros Hm. apply month_cases in Hm.
  repeat (apply elem_of_cons in Hm as [-> | Hm]; [vm_compute; reflexivity |]).
  apply elem_of_nil in Hm. contradiction.
Qed.

Lemma format_02d_inj (m1 m2 : Z) :
  (1 <= m1 <= 12)%Z -> (1 <= m2 <= 12)%Z ->
  format_02d m1 = format_02d m2 -> m1 = m2.
Proof.
  intros Hm1 Hm2 Heq. apply month_cases in Hm1. apply month_cases in Hm2.
  repeat (apply elem_of_cons in Hm1 as [-> | Hm1]);
    try (apply elem_of_nil in Hm1; contradiction);
    repeat (apply elem_of_cons in Hm2 as [-> | Hm2]);
    try (apply elem_of_nil in Hm2; contradiction);
    first [reflexivity | vm_compute in Heq; discriminate Heq].
Qed.

Lemma monthly_filename_inj (y1 y2 m1 m2 : Z) :
  (1 <= m1 <= 12)%Z -> (1 <= m2 <= 12)%Z ->
  monthly_filename y1 m1 = monthly_filename y2 m2 -> y1 = y2 /\ m1 = m2.
Proof.
  intros Hm1 Hm2 Heq. unfold monthly_filename in Heq.
  apply (inj (String.append "clipped_final_img_")) in Heq.
  apply string_app_inj_length in Heq as [Hy Hm];
    [| rewrite !length_month_suffix by assumption; reflexivity].
  split; [apply (inj pretty); exact Hy |].
  apply (inj (String.append "_")) in Hm.
  apply string_app_inj_length in Hm as [Hm _]; [| reflexivity].
  apply format_02d_inj; assumption.
Qed.

Lemma length_year_block (year : Z) :
  length (monthly_filename year <$> py_range 1 13) = 12.
Proof. unfold py_range. rewrite length_fmap, length_seqZ. reflexivity. Qed.

Lemma elem_of_month_range (m : Z) : m ∈ py_range 1 13 <-> (1 <= m <= 12)%Z.
Proof. unfold py_range. rewrite elem_of_seqZ. lia. Qed.

Lemma length_expected_filenames (start_year end_year : Z) :
  length (generate_expected_filenames start_year end_year)
  = 12 * Z.to_nat (end_year - start_year + 1).
Proof.
  unfold generate_expected_filenames.
  rewrite (length_bind_blocks _ _ 12) by apply length_year_block.
  unfold py_range. rewrite length_seqZ. lia.
Qed.

Lemma expected_filenames_lookup (start_year end_year y m : Z) :
  (start_year <= y <= end_year)%Z -> (1 <= m <= 12)%Z ->
  generate_expected_filenames start_year end_year
    !! Z.to_nat (12 * (y - start_year) + (m - 1))
  = Some (monthly_filename y m).
Proof.
  intros Hy Hm. unfold generate_expected_filenames.
  replace (Z.to_nat (12 * (y - start_year) + (m - 1)))
    with (Z.to_nat (y - start_year) * 12 + Z.to_nat (m - 1)) by lia.
  rewrite (lookup_bind_blocks _ _ 12) by (apply length_year_block || lia).
  unfold py_range. rewrite lookup_seqZ_lt by lia.
  change (Some ?a ≫= ?f) with (f a). cbv beta.
  rewrite list_lookup_fmap, lookup_seqZ_lt by lia.
  change (?f <$> Some ?a) with (Some (f a)).
  do 2 f_equal; lia.
Qed.

(** The list of expected names holds twelve names per year from
    [start_year] to [end_year] (none when [end_year < start_year]), and the
    name of month [m] of year [y] stands at index [12 * (y - start_year) +
    (m - 1)]: the position of a name is the number of months since January
    of [start_year]. *)
Theorem expected_filenames_layout (start_year end_year y m : Z) :
  (start_year <= y <= end_year)%Z -> (1 <= m <= 12)%Z ->
  length (generate_expected_filenames start_year end_year)
  = 12 * Z.to_nat (end_year - start_year + 1)
  /\ generate_expected_filenames start_year end_year
       !! Z.to_nat (12 * (y - start_year) + (m - 1))
     = Some (monthly_filename y m).
Proof.
  intros Hy Hm. split.
  - apply length_expected_filenames.
  - apply expected_filenames_lookup; assumption.
Qed.

Lemma expected_filenames_layout_witness :
  length (generate_expected_filenames 2003 2021) = 12 * Z.to_nat (2021 - 2003 + 1)
  /\ generate_expected_filenames 2003 2021 !! Z.to_nat (12 * (2017 - 2003) + (8 - 1))
     = Some (monthly_filename 2017 8).
Proof. apply (expected_filenames_layout 2003 2021 2017 8); lia. Defined.

(** The expected names are exactly the names of the months 1 to 12 of the
    years [start_year] to [end_year], each once: no two (year, month)
    pairs share a name. *)
Theorem expected_filenames_distinct (start_year end_year : Z) :
  NoDup (generate_expected_filenames start_year end_year)
  /\ forall name,
       name ∈ generate_expected_filenames start_year end_year
       <-> exists y m, (start_year <= y <= end_year)%Z /\ (1 <= m <= 12)%Z
                       /\ name = monthly_filename y m.
Proof.
  unfold generate_expected_filenames. split.
  - apply NoDup_bind.
    + intros y1 y2 name _ _ H1 H2.
      apply list_elem_of_fmap in H1 as (m1 & -> & Hm1).
      apply list_elem_of_fmap in H2 as (m2 & Heq & Hm2).
      apply elem_of_month_range in Hm1. apply elem_of_month_range in Hm2.
      apply monthly_filename_inj in Heq as [Hy _]; assumption.
    + intros y _. apply NoDup_fmap_2_strong; [| apply NoDup_seqZ].
      intros m1 m2 Hm1 Hm2 Heq.
      apply elem_of_month_range in Hm1. apply elem_of_month_range in Hm2.
      apply monthly_filename_inj in Heq as [_ Hm]; assumption.
    + apply NoDup_seqZ.
  - intros name. rewrite list_elem_of_bind. split.
    + intros (y & Hin & Hy). apply list_elem_of_fmap in Hin as (m & -> & Hm).
      apply elem_of_month_range in Hm. unfold py_range in Hy.
      apply elem_of_seqZ in Hy. exists y, m. split; [lia |]. split; [lia | reflexivity].
    + intros (y & m & Hy & Hm & ->). exists y. split.
      * apply list_elem_of_fmap. exists m. split; [reflexivity |].
        apply elem_of_month_range. exact Hm.
      * unfold py_range. apply elem_of_seqZ. lia.
Qed.

(** * Reading and stacking *)

(** ** Writes at keyed offsets *)

Section KeyedWrites.

Context {A : Type} (key : A -> nat) (val : A -> float).

Lemma length_keyed_writes (l : list A) (buf : list float) :
  length (foldl (fun b p => <[key p := val p]> b) buf l) = length buf.
Proof.
  revert buf. induction l as [| p l IH]; intros buf; [reflexivity |].
  simpl. rewrite IH. apply length_insert.
Qed.

Lemma keyed_writes_frame (l : list A) (buf : list float) (o : nat) :
  Forall (fun p => o <> key p) l ->
  foldl (fun b p => <[key p := val p]> b) buf l !! o = buf !! o.
Proof.
  revert buf. induction l as [| p l IH]; intros buf Hne; [reflexivity |].
  apply Forall_cons_1 in Hne as [Hp Hne]. simpl.
  rewrite (IH _ Hne). apply list_lookup_insert_ne. congruence.
Qed.

Lemma keyed_writes_hit `{EqDecision A} (l : list A) (buf : list float) (p : A) :
  p ∈ l -> key p < length buf ->
  (forall q, q ∈ l -> key q = key p -> q = p) ->
  foldl (fun b q => <[key q := val q]> b) buf l !! key p = Some (val p).
Proof.
  revert buf. induction l as [| q l IH]; intros buf Hin Hlt Hinj.
  - apply elem_of_nil in Hin. contradiction.
  - simpl. destruct (decide (p ∈ l)) as [Hl | Hl].
    + apply IH; [exact Hl | rewrite length_insert; exact Hlt |].
      intros q' Hq'. apply Hinj. apply list_elem_of_further. exact Hq'.
    + apply elem_of_cons in Hin as [-> | Hin]; [| contradiction].
      rewrite keyed_writes_frame; [apply list_lookup_insert_eq; exact Hlt |].
      apply Forall_forall. intros q' Hq' Heq.
      assert (q' = q) as ->; [| contradiction].
      apply Hinj; [apply list_elem_of_further; exact Hq' | symmetry; exact Heq].
Qed.

End KeyedWrites.

Lemma length_write_slot (a : ndarray) (index : nat) (array : raster) (buf : list float) :
  length (write_slot a index array buf) = length buf.
Proof. unfold write_slot. apply length_keyed_writes. Qed.

(** After [a[..., index] = array] the cells of slot [index] are the
    broadcast pixels and every other cell is as before. *)
Lemma lookup_write_slot (a : ndarray) (index : nat) (array : raster) (buf : list float)
    (i j k : nat) :
  length buf = size a ->
  i < time_steps a -> j < x_dim a -> k < y_dim a -> index < y_dim a ->
  write_slot a index array buf !! offset a i j k
  = if decide (k = index) then Some (broadcast_pixel array i j)
    else buf !! offset a i j k.
Proof.
  intros Hlen Hi Hj Hk Hindex. unfold write_slot. case_decide as Hk'.
  - subst k.
    apply (keyed_writes_hit (fun p => offset a p.1 p.2 index)
             (fun p => broadcast_pixel array p.1 p.2) _ _ (i, j)).
    + apply elem_of_locations. lia.
    + simpl. rewrite Hlen. apply offset_bound; assumption.
    + intros [i' j'] Hin Heq. apply elem_of_locations in Hin. simpl in Heq.
      apply offset_inj in Heq as (-> & -> & _); [reflexivity | lia ..].
  - apply keyed_writes_frame. apply Forall_forall. intros [i' j'] Hin Heq.
    apply elem_of_locations in Hin. simpl in Heq.
    apply offset_inj in Heq as (_ & _ & Heq); [contradiction | lia ..].
Qed.

Lemma enumerate_from_app {A} (n : nat) (l1 l2 : list A) :
  enumerate_from n (l1 ++ l2)
  = enumerate_from n l1 ++ enumerate_from (n + length l1) l2.
Proof.
  revert n. induction l1 as [| x l1 IH]; intros n; simpl.
  - rewrite Nat.add_0_r. reflexivity.
  - rewrite IH. do 3 f_equal. lia.
Qed.

(** ** The shape of the first readable file *)

Lemma get_shape_skips_unreadable (rasterio_read : string -> read_outcome)
    (bad rest : list string) (tiff_directory : string) (w : world) :
  Forall (unreadable rasterio_read tiff_directory) bad ->
  get_shape_of_first_tiff rasterio_read (bad ++ rest) tiff_directory w
  = get_shape_of_first_tiff rasterio_read rest tiff_directory
      (World (heap w) (stdout w ++ (shape_error_line rasterio_read tiff_directory <$> bad))).
Proof.
  revert w. induction bad as [| file bad IH]; intros w Hbad.
  - simpl. rewrite app_nil_r. destruct w; reflexivity.
  - apply Forall_cons_1 in Hbad as [[e He] Hbad]. simpl.
    rewrite He, (IH _ Hbad). unfold shape_error_line at 2. rewrite He.
    simpl. rewrite <- app_assoc. reflexivity.
Qed.

(** [get_shape_of_first_tiff] returns the shape of the first file of the
    listing that can be read, after one error line for each file before
    it, and allocates nothing. *)
Theorem shape_of_first_readable (rasterio_read : string -> read_outcome)
    (bad rest : list string) (file tiff_directory : string) (array : raster) (w : world) :
  Forall (unreadable rasterio_read tiff_directory) bad ->
  rasterio_read (path_join tiff_directory file) = Band array ->
  get_shape_of_first_tiff rasterio_read (bad ++ file :: rest) tiff_directory w
  = (World (heap w)
       (stdout w ++ (shape_error_line rasterio_read tiff_directory <$> bad)),
     Shape (rows array) (cols array)).
Proof.
  intros Hbad Hfile. rewrite (get_shape_skips_unreadable _ _ _ _ _ Hbad).
  simpl. rewrite Hfile. reflexivity.
Qed.

(** [get_shape_of_first_tiff] raises [FileNotFoundError] exactly when no
    file of the listing can be read (an empty listing included); it has
    then printed one error line per file. *)
Theorem shape_not_found_iff (rasterio_read : string -> read_outcome)
    (tiff_files : list string) (tiff_directory : string) (w : world) :
  ((get_shape_of_first_tiff rasterio_read tiff_files tiff_directory w).2 = FileNotFoundError
   <-> Forall (unreadable rasterio_read tiff_directory) tiff_files)
  /\ (Forall (unreadable rasterio_read tiff_directory) tiff_files ->
      get_shape_of_first_tiff rasterio_read tiff_files tiff_directory w
      = (World (heap w)
           (stdout w ++ (shape_error_line rasterio_read tiff_directory <$> tiff_files)),
         FileNotFoundError)).
Proof.
  assert (Forall (unreadable rasterio_read tiff_directory) tiff_files ->
          get_shape_of_first_tiff rasterio_read tiff_files tiff_directory w
          = (World (heap w)
               (stdout w ++ (shape_error_line rasterio_read tiff_directory <$> tiff_files)),
             FileNotFoundError)) as Hall.
  { intros Hbad. rewrite <- (app_nil_r tiff_files) at 1.
    rewrite (get_shape_skips_unreadable _ _ _ _ _ Hbad). reflexivity. }
  split; [| exact Hall]. split; [| intros Hbad; rewrite (Hall Hbad); reflexivity].
  revert w Hall. induction tiff_files as [| file rest IH]; intros w _ Hres.
  - constructor.
  - simpl in Hres.
    destruct (rasterio_read (path_join tiff_directory file)) as [array | e] eqn:Hread.
    + discriminate Hres.
    + constructor; [exists e; exact Hread |].
      apply (IH (print ("Error reading file " +:+ path_join tiff_directory file
                          +:+ ": " +:+ e) w).1); [| exact Hres].
      intros Hbad. rewrite <- (app_nil_r rest) at 1.
      rewrite (get_shape_skips_unreadable _ _ _ _ _ Hbad). reflexivity.
Qed.

(** ** Stacking *)

Section Stacking.

Variable rasterio_read : string -> read_outcome.
Variables (tiff_files : list string) (tiff_directory : string).
Variables (w : world) (n_rows n_cols n : nat).

Lemma stack_body_fits (buf : list float) (out : list string) (index : nat)
    (filename : string) :
  index < n ->
  slot_fits rasterio_read tiff_files tiff_directory (n_rows, n_cols) filename = true ->
  stack_body rasterio_read tiff_files tiff_directory (full_array w n_rows n_cols n) index filename
    (copy_world w buf out)
  = (copy_world w
       (stack_step rasterio_read tiff_files tiff_directory (full_array w n_rows n_cols n) buf
          (index, filename))
       (out ++ stack_log rasterio_read tiff_files tiff_directory filename),
     Ok tt).
Proof.
  intros Hindex Hfits.
  unfold stack_body, stack_step, stack_log, slot_fits, slot_source in *. simpl in *.
  case_bool_decide as Hin; [| reflexivity].
  unfold read_tiff_to_array, print. simpl.
  destruct (rasterio_read (path_join tiff_directory filename)) as [array | e].
  - unfold setitem_last_axis. simpl.
    destruct (Nat.ltb_spec index n) as [_ | Hge]; [| lia]. simpl negb. cbv iota.
    rewrite Hfits. unfold copy_world. simpl. f_equal. f_equal.
    rewrite <- (Nat.add_0_r (length (heap w))), alter_app_r. reflexivity.
  - unfold copy_world. simpl. rewrite <- app_assoc. reflexivity.
Qed.

Lemma stack_body_misfit (buf : list float) (out : list string) (index : nat)
    (filename : string) :
  index < n ->
  slot_fits rasterio_read tiff_files tiff_directory (n_rows, n_cols) filename = false ->
  stack_body rasterio_read tiff_files tiff_directory (full_array w n_rows n_cols n) index filename
    (copy_world w buf out)
  = (copy_world w buf (out ++ stack_log rasterio_read tiff_files tiff_directory filename),
     Raise ValueError).
Proof.
  intros Hindex Hfits.
  unfold stack_body, stack_log, slot_fits, slot_source in *. simpl in *.
  case_bool_decide as Hin; [| discriminate Hfits].
  unfold read_tiff_to_array, print. simpl.
  destruct (rasterio_read (path_join tiff_directory filename)) as [array | e];
    [| discriminate Hfits].
  unfold setitem_last_axis. simpl.
  destruct (Nat.ltb_spec index n) as [_ | Hge]; [| lia]. simpl negb. cbv iota.
  rewrite Hfits. reflexivity.
Qed.

Lemma stack_loop_fits (files : list string) (start : nat) (buf : list float)
    (out : list string) :
  start + length files <= n ->
  Forall (fun f => slot_fits rasterio_read tiff_files tiff_directory (n_rows, n_cols) f
                   = true) files ->
  for_each (enumerate_from start files)
    (fun entry => stack_body rasterio_read tiff_files tiff_directory (full_array w n_rows n_cols n)
                    entry.1 entry.2)
    (copy_world w buf out)
  = (copy_world w
       (foldl (stack_step rasterio_read tiff_files tiff_directory (full_array w n_rows n_cols n)) buf
          (enumerate_from start files))
       (out ++ (files ≫= stack_log rasterio_read tiff_files tiff_directory)),
     Ok tt).
Proof.
  revert start buf out. induction files as [| f files IH]; intros start buf out Hlen Hfits.
  - simpl. rewrite app_nil_r. reflexivity.
  - apply Forall_cons_1 in Hfits as [Hf Hfits]. simpl in Hlen.
    simpl for_each. unfold bind. simpl fst. simpl snd.
    rewrite (stack_body_fits buf out start f) by (lia || exact Hf).
    rewrite IH by (lia || exact Hfits).
    rewrite bind_cons, app_assoc. reflexivity.
Qed.

(** The cell [(i, j, k)] of the buffer after the steps for the files at
    indices [start, start + length files). *)
Lemma stack_steps_lookup (files : list string) (start : nat) (buf : list float)
    (i j k : nat) :
  length buf = n_rows * n_cols * n ->
  start + length files <= n ->
  i < n_rows -> j < n_cols -> k < n ->
  foldl (stack_step rasterio_read tiff_files tiff_directory (full_array w n_rows n_cols n)) buf
    (enumerate_from start files) !! offset (full_array w n_rows n_cols n) i j k
  = match (if decide (start <= k) then files !! (k - start) else None)
          ≫= slot_source rasterio_read tiff_files tiff_directory with
    | Some array => Some (broadcast_pixel array i j)
    | None => buf !! offset (full_array w n_rows n_cols n) i j k
    end.
Proof.
  intros Hbuf Hlen Hi Hj Hk. revert start buf Hbuf Hlen.
  induction files as [| f files IH]; intros start buf Hbuf Hlen.
  - simpl. case_decide; reflexivity.
  - simpl in Hlen. simpl foldl. rewrite IH; [| | lia].
    2:{ unfold stack_step. simpl.
        destruct (slot_source _ _ _ f); [rewrite length_write_slot |]; exact Hbuf. }
    destruct (decide (start <= k)) as [Hle | Hlt].
    + destruct (decide (k = start)) as [-> | Hne].
      * rewrite decide_False by lia. rewrite Nat.sub_diag. simpl.
        unfold stack_step. simpl.
        destruct (slot_source _ _ _ f) as [array |]; [| reflexivity].
        rewrite lookup_write_slot by (assumption || (simpl; lia)).
        rewrite decide_True by reflexivity. reflexivity.
      * rewrite decide_True by lia.
        replace (k - start) with (S (k - S start)) by lia. simpl.
        destruct (files !! (k - S start) ≫= slot_source _ _ _) as [array |];
          [reflexivity |].
        unfold stack_step. simpl.
        destruct (slot_source _ _ _ f) as [array |]; [| reflexivity].
        rewrite lookup_write_slot by (assumption || (simpl; lia)).
        rewrite decide_False by lia. reflexivity.
    + rewrite decide_False by lia. simpl.
      unfold stack_step. simpl.
      destruct (slot_source _ _ _ f) as [array |]; [| reflexivity].
      rewrite lookup_write_slot by (assumption || (simpl; lia)).
      rewrite decide_False by lia. reflexivity.
Qed.

End Stacking.

Lemma shape_of_first_readable_witness :
  get_shape_of_first_tiff example_files (["q.tif"] ++ "b.tif" :: ["a.tif"]) "d"
    (World [] [])
  = (World (heap (World [] []))
       (stdout (World [] []) ++ (shape_error_line example_files "d" <$> ["q.tif"])),
     Shape (rows (Raster 2 2 [5; 6; 7; 8]%float)) (cols (Raster 2 2 [5; 6; 7; 8]%float))).
Proof.
  apply (shape_of_first_readable example_files ["q.tif"] ["a.tif"] "b.tif" "d").
  - repeat constructor. eexists. reflexivity.
  - reflexivity.
Defined.

Lemma enumerate_from_names {A} (start : nat) (l : list A) (entry : nat * A) :
  entry ∈ enumerate_from start l -> entry.2 ∈ l.
Proof.
  revert start. induction l as [| x l IH]; intros start Hin; simpl in Hin.
  - apply elem_of_nil in Hin. contradiction.
  - apply elem_of_cons in Hin as [-> | Hin]; [left |].
    right. exact (IH _ Hin).
Qed.

Lemma for_each_ext {A} (l : list A) (body1 body2 : A -> py unit) (w : world) :
  (forall x w', x ∈ l -> body1 x w' = body2 x w') ->
  for_each l body1 w = for_each l body2 w.
Proof.
  revert w. induction l as [| x l IH]; intros w Hext; [reflexivity |].
  simpl. unfold bind. rewrite (Hext x w) by left.
  destruct (body2 x w) as [w' [[] | e]]; [| reflexivity].
  apply IH. intros y w'' Hy. apply Hext. right. exact Hy.
Qed.

Lemma length_stack_steps (rasterio_read : string -> read_outcome)
    (tiff_files : list string) (tiff_directory : string) (a : ndarray)
    (entries : list (nat * string)) (buf : list float) :
  length (foldl (stack_step rasterio_read tiff_files tiff_directory a) buf entries)
  = length buf.
Proof.
  revert buf. induction entries as [| entry entries IH]; intros buf; [reflexivity |].
  simpl. rewrite IH. unfold stack_step.
  destruct (slot_source _ _ _ _); [apply length_write_slot | reflexivity].
Qed.

Lemma stack_run_fits (rasterio_read : string -> read_outcome)
    (expected_files tiff_files : list string) (array_shape : nat * nat)
    (tiff_directory : string) (w : world) :
  Forall (fun f => slot_fits rasterio_read tiff_files tiff_directory array_shape f = true)
    expected_files ->
  let stacked_array :=
    full_array w array_shape.1 array_shape.2 (length expected_files) in
  exists w',
    stack_tiff_files_with_nans rasterio_read expected_files tiff_files array_shape
      tiff_directory w = (w', Ok stacked_array)
    /\ array_wf w' stacked_array
    /\ (exists buf, heap w' = heap w ++ [buf])
    /\ stdout w'
       = stdout w ++ (expected_files ≫= stack_log rasterio_read tiff_files tiff_directory)
    /\ forall i j k, i < array_shape.1 -> j < array_shape.2 -> k < length expected_files ->
         getitem w' stacked_array i j k
         = match expected_files !! k ≫= slot_source rasterio_read tiff_files tiff_directory with
           | Some array => broadcast_pixel array i j
           | None => nan
           end.
Proof.
  destruct array_shape as [n_rows n_cols]. simpl. intros Hfits.
  pose proof (stack_loop_fits rasterio_read tiff_files tiff_directory w n_rows n_cols
                (length expected_files) expected_files 0
                (replicate (n_rows * n_cols * length expected_files) nan) (stdout w))
    as Hloop.
  eexists. split.
  - unfold stack_tiff_files_with_nans, bind, np_full_nan, enumerate. simpl.
    fold (full_array w n_rows n_cols (length expected_files)).
    fold (copy_world w (replicate (n_rows * n_cols * length expected_files) nan)
            (stdout w)).
    rewrite Hloop by (simpl; lia || exact Hfits). reflexivity.
  - simpl.
    set (buf := foldl _ _ _).
    assert (length buf = n_rows * n_cols * length expected_files) as Hbuf.
    { subst buf. rewrite length_stack_steps, length_replicate. reflexivity. }
    split; [exists buf; split; [| exact Hbuf] |].
    { unfold full_array. simpl. apply list_lookup_middle. reflexivity. }
    split; [exists buf; reflexivity |]. split; [reflexivity |].
    intros i j k Hi Hj Hk.
    unfold getitem, buffer, full_array. simpl.
    rewrite list_lookup_middle by reflexivity. simpl.
    subst buf.
    rewrite (stack_steps_lookup rasterio_read tiff_files tiff_directory w n_rows n_cols
               (length expected_files) expected_files 0 _ i j k)
      by (rewrite ?length_replicate; simpl; lia).
    rewrite decide_True by lia. rewrite Nat.sub_0_r.
    destruct (expected_files !! k ≫= slot_source _ _ _) as [array |]; [reflexivity |].
    rewrite lookup_replicate_2; [reflexivity |].
    apply (offset_bound (full_array w n_rows n_cols (length expected_files)));
      assumption.
Qed.

(** When every expected file that is listed and can be read has a raster
    that broadcasts to [array_shape], [stack_tiff_files_with_nans] returns a
    new array of shape [(rows, cols, len(expected_files))] whose slot [k]
    holds the raster of [expected_files[k]] when that file is listed in
    [tiff_files] and can be read, and NaN everywhere otherwise; the heap of
    the start is kept, and the lines printed are those of the files in
    order. *)
Theorem stack_contents (rasterio_read : string -> read_outcome)
    (expected_files tiff_files : list string) (array_shape : nat * nat)
    (tiff_directory : string) (w : world) :
  Forall (fun f => slot_fits rasterio_read tiff_files tiff_directory array_shape f = true)
    expected_files ->
  let stacked_array :=
    full_array w array_shape.1 array_shape.2 (length expected_files) in
  exists w',
    stack_tiff_files_with_nans rasterio_read expected_files tiff_files array_shape
      tiff_directory w = (w', Ok stacked_array)
    /\ array_wf w' stacked_array
    /\ (exists buf, heap w' = heap w ++ [buf])
    /\ stdout w'
       = stdout w ++ (expected_files ≫= stack_log rasterio_read tiff_files tiff_directory)
    /\ forall i j k, i < array_shape.1 -> j < array_shape.2 -> k < length expected_files ->
         getitem w' stacked_array i j k
         = match expected_files !! k ≫= slot_source rasterio_read tiff_files tiff_directory with
           | Some array => broadcast_pixel array i j
           | None => nan
           end.
Proof. apply stack_run_fits. Qed.

Lemma stack_contents_witness :
  let stacked_array := full_array (World [] []) 2 2 3 in
  exists w',
    stack_tiff_files_with_nans example_files ["a.tif"; "m.tif"; "b.tif"]
      ["b.tif"; "a.tif"; "junk.tif"] (2, 2) "d" (World [] []) = (w', Ok stacked_array)
    /\ array_wf w' stacked_array
    /\ (exists buf, heap w' = heap (World [] []) ++ [buf])
    /\ stdout w'
       = stdout (World [] [])
         ++ (["a.tif"; "m.tif"; "b.tif"]
               ≫= stack_log example_files ["b.tif"; "a.tif"; "junk.tif"] "d")
    /\ forall i j k, i < 2 -> j < 2 -> k < 3 ->
         getitem w' stacked_array i j k
         = match ["a.tif"; "m.tif"; "b.tif"] !! k
                 ≫= slot_source example_files ["b.tif"; "a.tif"; "junk.tif"] "d" with
           | Some array => broadcast_pixel array i j
           | None => nan
           end.
Proof.
  apply (stack_contents example_files ["a.tif"; "m.tif"; "b.tif"]
           ["b.tif"; "a.tif"; "junk.tif"] (2, 2) "d" (World [] [])).
  repeat constructor.
Defined.

(** A raster that does not broadcast to [array_shape] makes the stacking
    fail: at the first expected file that is listed, can be read and does
    not fit, [stack_tiff_files_with_nans] raises [ValueError] (no array is
    returned), having printed the lines of the files up to that one. *)
Theorem stack_misfit_raises (rasterio_read : string -> read_outcome)
    (before after tiff_files : list string) (misfit : string) (array_shape : nat * nat)
    (tiff_directory : string) (w : world) :
  Forall (fun f => slot_fits rasterio_read tiff_files tiff_directory array_shape f = true)
    before ->
  slot_fits rasterio_read tiff_files tiff_directory array_shape misfit = false ->
  exists w',
    stack_tiff_files_with_nans rasterio_read (before ++ misfit :: after) tiff_files
      array_shape tiff_directory w = (w', Raise ValueError)
    /\ stdout w'
       = stdout w
         ++ ((before ++ [misfit]) ≫= stack_log rasterio_read tiff_files tiff_directory).
Proof.
  destruct array_shape as [n_rows n_cols]. intros Hfits Hmisfit.
  set (files := before ++ misfit :: after).
  pose proof (stack_loop_fits rasterio_read tiff_files tiff_directory w n_rows n_cols
                (length files) before 0
                (replicate (n_rows * n_cols * length files) nan) (stdout w))
    as Hloop.
  assert (length before < length files) as Hlt.
  { subst files. rewrite length_app. simpl. lia. }
  eexists. split.
  - unfold stack_tiff_files_with_nans, bind, np_full_nan, enumerate. simpl.
    fold (full_array w n_rows n_cols (length files)).
    fold (copy_world w (replicate (n_rows * n_cols * length files) nan) (stdout w)).
    subst files. rewrite enumerate_from_app, for_each_app. unfold bind.
    rewrite Hloop by (simpl; lia || exact Hfits). simpl.
    unfold bind.
    rewrite stack_body_misfit by (simpl; lia || exact Hmisfit). reflexivity.
  - simpl. rewrite bind_app, app_assoc. simpl. rewrite app_nil_r. reflexivity.
Qed.

Lemma stack_misfit_raises_witness :
  exists w',
    stack_tiff_files_with_nans example_files (["a.tif"] ++ "c.tif" :: ["b.tif"])
      ["a.tif"; "b.tif"; "c.tif"] (2, 2) "d" (World [] []) = (w', Raise ValueError)
    /\ stdout w'
       = stdout (World [] [])
         ++ ((["a.tif"] ++ ["c.tif"])
               ≫= stack_log example_files ["a.tif"; "b.tif"; "c.tif"] "d").
Proof.
  apply (stack_misfit_raises example_files ["a.tif"] ["b.tif"]
           ["a.tif"; "b.tif"; "c.tif"] "c.tif" (2, 2) "d" (World [] [])).
  - repeat constructor.
  - reflexivity.
Defined.

(** Only the expected names are looked up in the listing: two listings that
    hold the same expected names (whatever else they hold, in whatever
    order) give the same stack and the same output. *)
Theorem stack_ignores_other_files (rasterio_read : string -> read_outcome)
    (expected_files listing1 listing2 : list string) (array_shape : nat * nat)
    (tiff_directory : string) (w : world) :
  (forall f, f ∈ expected_files -> (f ∈ listing1 <-> f ∈ listing2)) ->
  stack_tiff_files_with_nans rasterio_read expected_files listing1 array_shape
    tiff_directory w
  = stack_tiff_files_with_nans rasterio_read expected_files listing2 array_shape
      tiff_directory w.
Proof.
  intros Hsame. unfold stack_tiff_files_with_nans, bind.
  destruct (np_full_nan _ _ _ w) as [w1 [stacked_array | e]]; [| reflexivity].
  rewrite (for_each_ext _ _
             (fun entry => stack_body rasterio_read listing2 tiff_directory stacked_array
                             entry.1 entry.2)); [reflexivity |].
  intros entry w' Hin. apply enumerate_from_names in Hin.
  unfold stack_body. rewrite (bool_decide_ext _ _ (Hsame _ Hin)). reflexivity.
Qed.

Lemma stack_ignores_other_files_witness :
  stack_tiff_files_with_nans example_files ["a.tif"; "m.tif"; "b.tif"]
    ["b.tif"; "a.tif"; "junk.tif"] (2, 2) "d" (World [] [])
  = stack_tiff_files_with_nans example_files ["a.tif"; "m.tif"; "b.tif"]
      ["a.tif"; "b.tif"] (2, 2) "d" (World [] []).
Proof.
  apply (stack_ignores_other_files example_files ["a.tif"; "m.tif"; "b.tif"]
           ["b.tif"; "a.tif"; "junk.tif"] ["a.tif"; "b.tif"] (2, 2) "d" (World [] [])).
  intros f Hf.
  repeat (apply elem_of_cons in Hf as [-> | Hf];
          [split; intros H;
           first [ solve [repeat constructor]
                 | exfalso;
                   repeat (apply elem_of_cons in H as [H | H]; [discriminate H |]);
                   apply elem_of_nil in H; exact H ] |]).
  apply elem_of_nil in Hf. contradiction.
Defined.

(** * One array per month *)

Lemma io_for_each_app {A} (l1 l2 : list A) (body : A -> io unit) (w : world) :
  io_for_each (l1 ++ l2) body w
  = io_bind (io_for_each l1 body) (fun _ => io_for_each l2 body) w.
Proof.
  revert w. induction l1 as [| x l1 IH]; intros w; simpl.
  - reflexivity.
  - unfold io_bind in *. destruct (body x w) as [w' [[] | e]]; [apply IH | reflexivity].
Qed.

Lemma io_for_each_fmap {A B} (f : A -> B) (l : list A) (body : B -> io unit) (w : world) :
  io_for_each (f <$> l) body w = io_for_each l (fun x => body (f x)) w.
Proof.
  revert w. induction l as [| x l IH]; intros w; simpl; [reflexivity |].
  unfold io_bind. destruct (body (f x) w) as [w' [[] | e]]; [apply IH | reflexivity].
Qed.

Lemma io_for_each_nested {A B} (xs : list A) (ys : list B) (body : A -> B -> io unit)
    (w : world) :
  io_for_each xs (fun x => io_for_each ys (body x)) w
  = io_for_each (xs ≫= fun x => pair x <$> ys) (fun p => body p.1 p.2) w.
Proof.
  revert w. induction xs as [| x xs IH]; intros w; [reflexivity |].
  rewrite bind_cons, io_for_each_app. simpl. unfold io_bind.
  rewrite io_for_each_fmap. simpl.
  destruct (io_for_each ys (body x) w) as [w' [[] | e]]; [apply IH | reflexivity].
Qed.

Lemma get_shape_heap (rasterio_read : string -> read_outcome) (tiff_files : list string)
    (tiff_directory : string) (w : world) :
  heap (get_shape_of_first_tiff rasterio_read tiff_files tiff_directory w).1 = heap w.
Proof.
  revert w. induction tiff_files as [| file rest IH]; intros w; [reflexivity |].
  simpl. destruct (rasterio_read _); [reflexivity |]. rewrite IH. reflexivity.
Qed.

Lemma elem_of_year_months (start_year end_year y m : Z) :
  (y, m) ∈ year_months start_year end_year
  <-> (start_year <= y <= end_year)%Z /\ (1 <= m <= 12)%Z.
Proof.
  unfold year_months, py_range. rewrite list_elem_of_bind. split.
  - intros (y' & Hin & Hy'). apply list_elem_of_fmap in Hin as (m' & [= -> ->] & Hm').
    apply elem_of_seqZ in Hy'. apply elem_of_seqZ in Hm'. lia.
  - intros [Hy Hm]. exists y. split.
    + apply list_elem_of_fmap. exists m. split; [reflexivity |]. apply elem_of_seqZ. lia.
    + apply elem_of_seqZ. lia.
Qed.

(** The twelve arrays of the dict comprehension. *)
Lemma full_nan_per_month_run (n_rows n_cols : nat) (n : Z) (len : nat) (a : Z)
    (h : list (list float)) (out : list string) :
  (0 <= n)%Z ->
  full_nan_per_month (seqZ a (Z.of_nat len)) n_rows n_cols n (World h out)
  = (World (h ++ replicate len (replicate (n_rows * n_cols * Z.to_nat n) nan)) out,
     Return ((fun m => (m, NdArray (length h + Z.to_nat (m - a)) n_rows n_cols (Z.to_nat n)))
               <$> seqZ a (Z.of_nat len))).
Proof.
  intros Hn. revert a h. induction len as [| len IH]; intros a h.
  - simpl. rewrite app_nil_r. reflexivity.
  - rewrite seqZ_cons by lia. simpl full_nan_per_month. unfold io_bind at 1.
    unfold np_full_nan_int. destruct (Z.ltb_spec n 0) as [Hneg | _]; [lia |].
    unfold io_of_py, np_full_nan. simpl.
    replace (Z.pred (Z.of_nat (S len))) with (Z.of_nat len) by lia.
    unfold io_bind. rewrite IH. unfold io_ret. f_equal.
    + f_equal. rewrite <- app_assoc. reflexivity.
    + f_equal. f_equal.
      * do 2 f_equal. lia.
      * apply Forall_fmap_ext_1, Forall_forall. intros m Hm.
        apply elem_of_seqZ in Hm. do 2 f_equal. rewrite length_app. simpl. lia.
Qed.

Lemma dict_get_month (h : list (list float)) (n_rows n_cols n : nat) (m : Z) :
  (1 <= m <= 12)%Z ->
  dict_get ((fun m => (m, NdArray (length h + Z.to_nat (m - 1)) n_rows n_cols n))
              <$> py_range 1 13) m
  = Some (NdArray (length h + Z.to_nat (m - 1)) n_rows n_cols n).
Proof.
  intros Hm. apply month_cases in Hm.
  repeat (apply elem_of_cons in Hm as [-> | Hm]; [reflexivity |]).
  apply elem_of_nil in Hm. contradiction.
Qed.

Section Monthly.

Variable rasterio_read : string -> read_outcome.
Variable path_exists : string -> bool.
Variables (tiff_files missing_files : list string) (tiff_directory : string).
Variables (w : world) (n_rows n_cols n : nat) (start_year : Z).

Lemma monthly_body_fits (bufs : list (list float)) (out : list string) (entry : Z * Z) :
  (entry_in_range n start_year) entry ->
  month_fits rasterio_read path_exists tiff_files missing_files tiff_directory
    (n_rows, n_cols) entry = true ->
  monthly_body rasterio_read path_exists tiff_files missing_files start_year
    tiff_directory (month_items w n_rows n_cols n) entry.1 entry.2 (World (heap w ++ bufs) out)
  = (World (heap w
              ++ month_step rasterio_read path_exists tiff_files missing_files
                   tiff_directory w n_rows n_cols n start_year bufs entry)
       (out ++ month_log rasterio_read path_exists tiff_files missing_files
                 tiff_directory entry),
     Return tt).
Proof.
  destruct entry as [y m]. intros [Hy Hm] Hfits. simpl in Hy, Hm.
  unfold monthly_body, month_step, month_log, month_fits, month_source in *.
  cbn [fst snd] in *.
  case_bool_decide as Hmissing; [reflexivity |].
  destruct (bool_decide (monthly_filename y m ∈ tiff_files) && path_exists _);
    [| reflexivity].
  destruct (rasterio_read _) as [array | e]; [| reflexivity].
  unfold month_items, month_array. rewrite dict_get_month by exact Hm.
  unfold io_of_py, setitem_last_axis_int. simpl y_dim.
  rewrite normalize_index_in_range by exact Hy.
  unfold setitem_last_axis. simpl.
  destruct (Nat.ltb_spec (Z.to_nat (y - start_year)) n) as [_ | Hge]; [| lia].
  simpl negb. cbv iota. rewrite Hfits.
  rewrite alter_app_r, app_nil_r. reflexivity.
Qed.

Lemma monthly_body_misfit (bufs : list (list float)) (out : list string) (entry : Z * Z) :
  (entry_in_range n start_year) entry ->
  month_fits rasterio_read path_exists tiff_files missing_files tiff_directory
    (n_rows, n_cols) entry = false ->
  monthly_body rasterio_read path_exists tiff_files missing_files start_year
    tiff_directory (month_items w n_rows n_cols n) entry.1 entry.2 (World (heap w ++ bufs) out)
  = (World (heap w ++ bufs) out, Throw (NumPyError ValueError)).
Proof.
  destruct entry as [y m]. intros [Hy Hm] Hfits. simpl in Hy, Hm.
  unfold monthly_body, month_fits, month_source in *.
  cbn [fst snd] in *.
  case_bool_decide as Hmissing; [discriminate Hfits |].
  destruct (bool_decide (monthly_filename y m ∈ tiff_files) && path_exists _);
    [| discriminate Hfits].
  destruct (rasterio_read _) as [array | e]; [| discriminate Hfits].
  unfold month_items, month_array. rewrite dict_get_month by exact Hm.
  unfold io_of_py, setitem_last_axis_int. simpl y_dim.
  rewrite normalize_index_in_range by exact Hy.
  unfold setitem_last_axis. simpl.
  destruct (Nat.ltb_spec (Z.to_nat (y - start_year)) n) as [_ | Hge]; [| lia].
  simpl negb. cbv iota. rewrite Hfits. reflexivity.
Qed.

Lemma monthly_loop_fits (entries : list (Z * Z)) (bufs : list (list float))
    (out : list string) :
  Forall (entry_in_range n start_year) entries ->
  Forall (fun entry =>
            month_fits rasterio_read path_exists tiff_files missing_files tiff_directory
              (n_rows, n_cols) entry = true) entries ->
  io_for_each entries
    (fun entry => monthly_body rasterio_read path_exists tiff_files missing_files
                    start_year tiff_directory (month_items w n_rows n_cols n) entry.1 entry.2)
    (World (heap w ++ bufs) out)
  = (World (heap w
              ++ foldl (month_step rasterio_read path_exists tiff_files missing_files
                          tiff_directory w n_rows n_cols n start_year) bufs entries)
       (out ++ (entries ≫= month_log rasterio_read path_exists tiff_files missing_files
                               tiff_directory)),
     Return tt).
Proof.
  revert bufs out. induction entries as [| entry entries IH]; intros bufs out Hin Hfits.
  - simpl. rewrite app_nil_r. reflexivity.
  - apply Forall_cons_1 in Hin as [He Hin]. apply Forall_cons_1 in Hfits as [Hf Hfits].
    simpl io_for_each. unfold io_bind.
    rewrite (monthly_body_fits bufs out entry He Hf).
    rewrite (IH _ _ Hin Hfits). rewrite bind_cons, app_assoc. reflexivity.
Qed.

(** The buffers keep their number and their lengths. *)
Lemma month_step_lengths (bufs : list (list float)) (entry : Z * Z) (len : nat) :
  Forall (fun buf => length buf = len) bufs ->
  length (month_step rasterio_read path_exists tiff_files missing_files tiff_directory
            w n_rows n_cols n start_year bufs entry) = length bufs
  /\ Forall (fun buf => length buf = len)
       (month_step rasterio_read path_exists tiff_files missing_files tiff_directory
          w n_rows n_cols n start_year bufs entry).
Proof.
  intros Hlen. unfold month_step.
  destruct (month_source _ _ _ _ _ _ _) as [array |]; [| split; [reflexivity | exact Hlen]].
  split; [apply length_alter |].
  apply Forall_alter; [exact Hlen |].
  intros buf _ Hbuf. rewrite length_write_slot. exact Hbuf.
Qed.

Lemma month_step_cell (bufs : list (list float)) (entry : Z * Z) (m : Z) (i j k : nat) :
  Forall (fun buf => length buf = n_rows * n_cols * n) bufs ->
  length bufs = 12 ->
  (entry_in_range n start_year) entry ->
  (1 <= m <= 12)%Z -> i < n_rows -> j < n_cols -> k < n ->
  month_cell w n_rows n_cols n (month_step rasterio_read path_exists tiff_files missing_files
                tiff_directory w n_rows n_cols n start_year bufs entry) m i j k
  = match (if decide (entry = ((start_year + Z.of_nat k)%Z, m))
           then month_source rasterio_read path_exists tiff_files missing_files
                  tiff_directory entry.1 entry.2
           else None) with
    | Some array => Some (broadcast_pixel array i j)
    | None => month_cell w n_rows n_cols n bufs m i j k
    end.
Proof.
  destruct entry as [y m']. intros Hlen H12 [Hy Hm'] Hm Hi Hj Hk. simpl in Hy, Hm'.
  unfold month_step. simpl fst. simpl snd.
  destruct (month_source _ _ _ _ _ y m') as [array |] eqn:Hsrc;
    [| case_decide; reflexivity].
  unfold month_cell. rewrite list_lookup_alter.
  destruct (decide (Z.to_nat (m' - 1) = Z.to_nat (m - 1))) as [Hmm | Hmm].
  - assert (m' = m) as -> by lia.
    destruct (bufs !! Z.to_nat (m - 1)) as [buf |] eqn:Hbuf.
    2:{ apply lookup_ge_None in Hbuf. lia. }
    simpl.
    assert (length buf = n_rows * n_cols * n) as Hbuflen.
    { rewrite Forall_forall in Hlen. apply Hlen.
      apply list_elem_of_lookup. exists (Z.to_nat (m - 1)). exact Hbuf. }
    rewrite lookup_write_slot by (assumption || (simpl; lia)).
    destruct (decide (k = Z.to_nat (y - start_year))) as [-> | Hne].
    + rewrite decide_True by (f_equal; lia). reflexivity.
    + rewrite decide_False; [reflexivity |]. intros [= Heq]. lia.
  - rewrite decide_False; [reflexivity |]. intros [= _ Heq]. lia.
Qed.

Lemma month_steps_cell (entries : list (Z * Z)) (bufs : list (list float)) (m : Z)
    (i j k : nat) :
  Forall (fun buf => length buf = n_rows * n_cols * n) bufs ->
  length bufs = 12 ->
  Forall (entry_in_range n start_year) entries ->
  (1 <= m <= 12)%Z -> i < n_rows -> j < n_cols -> k < n ->
  month_cell w n_rows n_cols n (foldl (month_step rasterio_read path_exists tiff_files missing_files
                       tiff_directory w n_rows n_cols n start_year) bufs entries)
    m i j k
  = match (if decide (((start_year + Z.of_nat k)%Z, m) ∈ entries)
           then month_source rasterio_read path_exists tiff_files missing_files
                  tiff_directory (start_year + Z.of_nat k) m
           else None) with
    | Some array => Some (broadcast_pixel array i j)
    | None => month_cell w n_rows n_cols n bufs m i j k
    end.
Proof.
  intros Hlen H12 Hin Hm Hi Hj Hk. revert bufs Hlen H12.
  induction entries as [| entry entries IH]; intros bufs Hlen H12.
  - cbn [foldl].
    case_decide as Hc; [apply elem_of_nil in Hc; contradiction | reflexivity].
  - apply Forall_cons_1 in Hin as [He Hin]. simpl foldl.
    destruct (month_step_lengths bufs entry _ Hlen) as [H12' Hlen'].
    rewrite (IH Hin _ Hlen') by congruence.
    rewrite (month_step_cell bufs entry m i j k Hlen H12 He Hm Hi Hj Hk).
    destruct (decide (entry = ((start_year + Z.of_nat k)%Z, m))) as [-> | Hne].
    + rewrite (decide_True (P := _ ∈ _ :: _)) by left. simpl fst. simpl snd.
      case_decide; destruct (month_source _ _ _ _ _ _ _); reflexivity.
    + destruct (decide (((start_year + Z.of_nat k)%Z, m) ∈ entries)) as [Hl | Hl].
      * rewrite (decide_True (P := _ ∈ _ :: _)) by (right; exact Hl).
        destruct (month_source _ _ _ _ _ _ _); reflexivity.
      * rewrite (decide_False (P := _ ∈ _ :: _)); [reflexivity |].
        intros Hc. apply elem_of_cons in Hc as [Hc | Hc]; [| contradiction].
        apply Hne. symmetry. exact Hc.
Qed.

End Monthly.

Lemma month_steps_lengths (rasterio_read : string -> read_outcome)
    (path_exists : string -> bool) (tiff_files missing_files : list string)
    (tiff_directory : string) (w : world) (n_rows n_cols n : nat) (start_year : Z)
    (entries : list (Z * Z)) (bufs : list (list float)) (len : nat) :
  Forall (fun buf => length buf = len) bufs ->
  length (foldl (month_step rasterio_read path_exists tiff_files missing_files
                   tiff_directory w n_rows n_cols n start_year) bufs entries)
  = length bufs
  /\ Forall (fun buf => length buf = len)
       (foldl (month_step rasterio_read path_exists tiff_files missing_files
                 tiff_directory w n_rows n_cols n start_year) bufs entries).
Proof.
  revert bufs. induction entries as [| entry entries IH]; intros bufs Hlen.
  - split; [reflexivity | exact Hlen].
  - simpl.
    destruct (month_step_lengths rasterio_read path_exists tiff_files missing_files
                tiff_directory w n_rows n_cols n start_year bufs entry len Hlen)
      as [H12 Hlen'].
    destruct (IH _ Hlen') as [H12' Hlen'']. split; [congruence | exact Hlen''].
Qed.

Lemma year_months_in_range (start_year end_year : Z) :
  Forall (entry_in_range (Z.to_nat (end_year - start_year + 1)) start_year)
    (year_months start_year end_year).
Proof.
  apply Forall_forall. intros [y m] Hin. apply elem_of_year_months in Hin.
  unfold entry_in_range. simpl. lia.
Qed.

(** The run of [create_monthly_3d_arrays] once a shape is found and the
    span of years is not negative, as long as the steps pass. *)
Lemma monthly_run (rasterio_read : string -> read_outcome) (path_exists : string -> bool)
    (tiff_files missing_files : list string) (start_year end_year : Z)
    (tiff_directory : string) (w w0 : world) (n_rows n_cols : nat) :
  get_shape_of_first_tiff rasterio_read tiff_files tiff_directory w
  = (w0, Shape n_rows n_cols) ->
  (start_year <= end_year + 1)%Z ->
  create_monthly_3d_arrays rasterio_read path_exists tiff_files missing_files
    start_year end_year tiff_directory w
  = match io_for_each (year_months start_year end_year)
            (fun entry =>
               monthly_body rasterio_read path_exists tiff_files missing_files
                 start_year tiff_directory
                 (month_items w0 n_rows n_cols (Z.to_nat (end_year - start_year + 1)))
                 entry.1 entry.2)
            (World (heap w0
                      ++ replicate 12
                           (replicate (n_rows * n_cols
                                       * Z.to_nat (end_year - start_year + 1)) nan))
               (stdout w0)) with
    | (w', Return _) =>
        (w', Return (month_items w0 n_rows n_cols (Z.to_nat (end_year - start_year + 1))))
    | (w', Throw e) => (w', Throw e)
    end.
Proof.
  intros Hshape Hspan. unfold create_monthly_3d_arrays. rewrite Hshape.
  unfold io_bind at 1. destruct w0 as [h out].
  change (py_range 1 13) with (seqZ 1 (Z.of_nat 12)) at 1.
  rewrite full_nan_per_month_run by lia.
  unfold io_bind, io_ret.
  rewrite (io_for_each_nested _ _
             (monthly_body rasterio_read path_exists tiff_files missing_files
                start_year tiff_directory _)).
  reflexivity.
Qed.

Lemma month_cell_lookup (w : world) (n_rows n_cols n : nat) (bufs : list (list float))
    (buf : list float) (m : Z) (i j k : nat) :
  bufs !! Z.to_nat (m - 1) = Some buf ->
  month_cell w n_rows n_cols n bufs m i j k
  = buf !! offset (month_array w n_rows n_cols n m) i j k.
Proof. unfold month_cell. intros ->. reflexivity. Qed.

(** When a listed file can be read, the span of years is not negative and
    every raster that is read broadcasts to the shape found,
    [create_monthly_3d_arrays] returns twelve new arrays of shape
    [(rows, cols, years)], for the months 1 to 12: slot [k] of month [m]
    holds the raster of that month of year [start_year + k] when its file is
    not named in [missing_files], is listed, exists and can be read, and NaN
    everywhere otherwise (a file named in [missing_files] is never read).
    One line is printed per year and month that is not filled. *)
Theorem monthly_contents (rasterio_read : string -> read_outcome)
    (path_exists : string -> bool) (tiff_files missing_files : list string)
    (start_year end_year : Z) (tiff_directory : string) (w w0 : world)
    (n_rows n_cols : nat) :
  get_shape_of_first_tiff rasterio_read tiff_files tiff_directory w
  = (w0, Shape n_rows n_cols) ->
  (start_year <= end_year + 1)%Z ->
  Forall (fun entry =>
            month_fits rasterio_read path_exists tiff_files missing_files tiff_directory
              (n_rows, n_cols) entry = true) (year_months start_year end_year) ->
  let n := Z.to_nat (end_year - start_year + 1) in
  exists w',
    create_monthly_3d_arrays rasterio_read path_exists tiff_files missing_files
      start_year end_year tiff_directory w
    = (w', Return (month_items w0 n_rows n_cols n))
    /\ (exists bufs, length bufs = 12 /\ heap w' = heap w ++ bufs)
    /\ stdout w'
       = stdout w0
         ++ (year_months start_year end_year
               ≫= month_log rasterio_read path_exists tiff_files missing_files
                     tiff_directory)
    /\ forall m i j k, (1 <= m <= 12)%Z -> i < n_rows -> j < n_cols -> k < n ->
         array_wf w' (month_array w0 n_rows n_cols n m)
         /\ getitem w' (month_array w0 n_rows n_cols n m) i j k
            = match month_source rasterio_read path_exists tiff_files missing_files
                      tiff_directory (start_year + Z.of_nat k) m with
              | Some array => broadcast_pixel array i j
              | None => nan
              end.
Proof.
  intros Hshape Hspan Hfits n.
  pose proof (get_shape_heap rasterio_read tiff_files tiff_directory w) as Hheap.
  rewrite Hshape in Hheap. simpl in Hheap.
  rewrite (monthly_run _ _ _ _ _ _ _ _ _ _ _ Hshape Hspan). fold n.
  rewrite (monthly_loop_fits rasterio_read path_exists tiff_files missing_files
             tiff_directory w0 n_rows n_cols n start_year _ _ _
             (year_months_in_range start_year end_year) Hfits).
  set (bufs := foldl _ _ _).
  destruct (month_steps_lengths rasterio_read path_exists tiff_files missing_files
              tiff_directory w0 n_rows n_cols n start_year
              (year_months start_year end_year)
              (replicate 12 (replicate (n_rows * n_cols * n) nan))
              (n_rows * n_cols * n))
    as [H12 Hlen].
  { apply Forall_replicate. apply length_replicate. }
  fold bufs in H12, Hlen. rewrite length_replicate in H12.
  eexists. split; [reflexivity |]. simpl.
  split; [exists bufs; split; [exact H12 | rewrite Hheap; reflexivity] |].
  split; [reflexivity |].
  intros m i j k Hm Hi Hj Hk.
  destruct (bufs !! Z.to_nat (m - 1)) as [buf |] eqn:Hbuf.
  2:{ apply lookup_ge_None in Hbuf. lia. }
  assert (length buf = n_rows * n_cols * n) as Hbuflen.
  { rewrite Forall_forall in Hlen. apply Hlen.
    apply list_elem_of_lookup. exists (Z.to_nat (m - 1)). exact Hbuf. }
  assert (heap (World (heap w0 ++ bufs) (stdout w0
            ++ (year_months start_year end_year
                  ≫= month_log rasterio_read path_exists tiff_files missing_files
                        tiff_directory)))
          !! base (month_array w0 n_rows n_cols n m) = Some buf) as Hlook.
  { simpl. rewrite lookup_app_r by lia.
    replace (length (heap w0) + Z.to_nat (m - 1) - length (heap w0))
      with (Z.to_nat (m - 1)) by lia.
    exact Hbuf. }
  split; [exists buf; split; [exact Hlook | exact Hbuflen] |].
  unfold getitem, buffer. rewrite Hlook. simpl default.
  assert (month_cell w0 n_rows n_cols n
            (replicate 12 (replicate (n_rows * n_cols * n) nan)) m i j k = Some nan)
    as Hinit.
  { rewrite (month_cell_lookup _ _ _ _ _ (replicate (n_rows * n_cols * n) nan))
      by (apply lookup_replicate_2; lia).
    apply lookup_replicate_2.
    apply (offset_bound (month_array w0 n_rows n_cols n m)); assumption. }
  pose proof (month_steps_cell rasterio_read path_exists tiff_files missing_files
                tiff_directory w0 n_rows n_cols n start_year
                (year_months start_year end_year)
                (replicate 12 (replicate (n_rows * n_cols * n) nan)) m i j k) as Hcell.
  fold bufs in Hcell.
  rewrite (month_cell_lookup _ _ _ _ _ _ _ _ _ _ Hbuf), Hinit in Hcell.
  rewrite Hcell; clear Hcell.
  - rewrite decide_True by (apply elem_of_year_months; lia).
    destruct (month_source _ _ _ _ _ _ _) as [array |]; reflexivity.
  - apply Forall_replicate. apply length_replicate.
  - apply length_replicate.
  - apply year_months_in_range.
  - exact Hm.
  - exact Hi.
  - exact Hj.
  - exact Hk.
Qed.

Lemma monthly_contents_witness :
  let n := Z.to_nat (2004 - 2003 + 1) in
  exists w',
    create_monthly_3d_arrays example_month_files example_month_exists example_listing
      ["clipped_final_img_2004_03.tif"] 2003 2004 "d" (World [] [])
    = (w', Return (month_items (World [] []) 1 2 n))
    /\ (exists bufs, length bufs = 12 /\ heap w' = heap (World [] []) ++ bufs)
    /\ stdout w'
       = stdout (World [] [])
         ++ (year_months 2003 2004
               ≫= month_log example_month_files example_month_exists example_listing
                     ["clipped_final_img_2004_03.tif"] "d")
    /\ forall m i j k, (1 <= m <= 12)%Z -> i < 1 -> j < 2 -> k < n ->
         array_wf w' (month_array (World [] []) 1 2 n m)
         /\ getitem w' (month_array (World [] []) 1 2 n m) i j k
            = match month_source example_month_files example_month_exists
                      example_listing ["clipped_final_img_2004_03.tif"] "d"
                      (2003 + Z.of_nat k) m with
              | Some array => broadcast_pixel array i j
              | None => nan
              end.
Proof.
  apply (monthly_contents example_month_files example_month_exists example_listing
           ["clipped_final_img_2004_03.tif"] 2003 2004 "d" (World [] []) (World [] []) 1 2).
  - reflexivity.
  - lia.
  - apply Forall_forall. intros entry Hin. apply list_elem_of_In in Hin.
    revert entry Hin. apply forallb_forall. vm_compute. reflexivity.
Defined.

(** [create_monthly_3d_arrays] fails before it reads any month: with
    [FileNotFoundError] when no listed file can be read (one error line per
    file, nothing allocated), and with NumPy's [ValueError] when a shape is
    found but [end_year < start_year - 1], the number of years being then
    negative (nothing allocated either). *)
Theorem monthly_early_failures (rasterio_read : string -> read_outcome)
    (path_exists : string -> bool) (tiff_files missing_files : list string)
    (start_year end_year : Z) (tiff_directory : string) (w : world) :
  (Forall (unreadable rasterio_read tiff_directory) tiff_files ->
   create_monthly_3d_arrays rasterio_read path_exists tiff_files missing_files
     start_year end_year tiff_directory w
   = (World (heap w)
        (stdout w ++ (shape_error_line rasterio_read tiff_directory <$> tiff_files)),
      Throw FileNotFound))
  /\ (forall w0 n_rows n_cols,
        get_shape_of_first_tiff rasterio_read tiff_files tiff_directory w
        = (w0, Shape n_rows n_cols) ->
        (end_year + 1 < start_year)%Z ->
        create_monthly_3d_arrays rasterio_read path_exists tiff_files missing_files
          start_year end_year tiff_directory w
        = (w0, Throw (NumPyError ValueError))).
Proof.
  split.
  - intros Hbad. unfold create_monthly_3d_arrays.
    rewrite <- (app_nil_r tiff_files) at 1.
    rewrite (get_shape_skips_unreadable _ _ _ _ _ Hbad). reflexivity.
  - intros w0 n_rows n_cols Hshape Hspan. unfold create_monthly_3d_arrays.
    rewrite Hshape. change (py_range 1 13) with (1%Z :: py_range 2 13) at 1.
    simpl full_nan_per_month. unfold io_bind, np_full_nan_int.
    destruct (Z.ltb_spec (end_year - start_year + 1) 0) as [_ | Hge]; [reflexivity | lia].
Qed.

(** A raster that does not broadcast to the shape found makes
    [create_monthly_3d_arrays] fail with NumPy's [ValueError], at the first
    year and month whose file is read and does not fit; no dict is
    returned. *)
Theorem monthly_misfit_raises (rasterio_read : string -> read_outcome)
    (path_exists : string -> bool) (tiff_files missing_files : list string)
    (start_year end_year : Z) (tiff_directory : string) (w w0 : world)
    (n_rows n_cols : nat) (before after : list (Z * Z)) (misfit : Z * Z) :
  get_shape_of_first_tiff rasterio_read tiff_files tiff_directory w
  = (w0, Shape n_rows n_cols) ->
  year_months start_year end_year = before ++ misfit :: after ->
  Forall (fun entry =>
            month_fits rasterio_read path_exists tiff_files missing_files tiff_directory
              (n_rows, n_cols) entry = true) before ->
  month_fits rasterio_read path_exists tiff_files missing_files tiff_directory
    (n_rows, n_cols) misfit = false ->
  exists w',
    create_monthly_3d_arrays rasterio_read path_exists tiff_files missing_files
      start_year end_year tiff_directory w
    = (w', Throw (NumPyError ValueError))
    /\ stdout w'
       = stdout w0
         ++ (before ≫= month_log rasterio_read path_exists tiff_files missing_files
                          tiff_directory).
Proof.
  intros Hshape Hsplit Hfits Hmisfit.
  pose proof (year_months_in_range start_year end_year) as Hrange.
  rewrite Hsplit in Hrange. apply Forall_app in Hrange as [Hbefore Hrest].
  apply Forall_cons_1 in Hrest as [Hentry _].
  assert (start_year <= end_year + 1)%Z as Hspan.
  { assert (misfit ∈ year_months start_year end_year) as Hin.
    { rewrite Hsplit. apply elem_of_app. right. left. }
    destruct misfit as [y m]. apply elem_of_year_months in Hin. lia. }
  rewrite (monthly_run _ _ _ _ _ _ _ _ _ _ _ Hshape Hspan).
  rewrite Hsplit, io_for_each_app. unfold io_bind.
  rewrite (monthly_loop_fits rasterio_read path_exists tiff_files missing_files
             tiff_directory w0 n_rows n_cols _ start_year _ _ _ Hbefore Hfits).
  simpl io_for_each. unfold io_bind.
  rewrite (monthly_body_misfit rasterio_read path_exists tiff_files missing_files
             tiff_directory w0 n_rows n_cols _ start_year _ _ _ Hentry Hmisfit).
  eexists. split; reflexivity.
Qed.

Lemma monthly_misfit_raises_witness :
  exists w',
    create_monthly_3d_arrays example_month_files example_month_exists
      (example_listing ++ ["clipped_final_img_2004_04.tif"]) [] 2004 2004 "d"
      (World [] [])
    = (w', Throw (NumPyError ValueError))
    /\ stdout w'
       = stdout (World [] [])
         ++ ([(2004, 1); (2004, 2); (2004, 3)]%Z
               ≫= month_log example_month_files example_month_exists
                     (example_listing ++ ["clipped_final_img_2004_04.tif"]) [] "d").
Proof.
  apply (monthly_misfit_raises example_month_files example_month_exists
           (example_listing ++ ["clipped_final_img_2004_04.tif"]) [] 2004 2004 "d"
           (World [] []) (World [] [])
           1 2 [(2004, 1); (2004, 2); (2004, 3)]%Z
           [(2004, 5); (2004, 6); (2004, 7); (2004, 8); (2004, 9); (2004, 10);
            (2004, 11); (2004, 12)]%Z (2004, 4)%Z).
  - reflexivity.
  - reflexivity.
  - repeat constructor.
  - reflexivity.
Defined.

(** Stacking the generated names: when the stack is built for the names of
    [generate_expected_filenames start_year end_year] (and the rasters
    fit), it has twelve slots per year, and the slot at index
    [12 * (y - start_year) + (m - 1)] holds the raster of month [m] of year
    [y] when that file is listed and can be read, and NaN otherwise. *)
Theorem stack_slot_of_month (rasterio_read : string -> read_outcome)
    (tiff_files : list string) (array_shape : nat * nat) (tiff_directory : string)
    (w : world) (start_year end_year y m : Z) :
  Forall (fun f => slot_fits rasterio_read tiff_files tiff_directory array_shape f = true)
    (generate_expected_filenames start_year end_year) ->
  (start_year <= y <= end_year)%Z -> (1 <= m <= 12)%Z ->
  exists w' stacked_array,
    stack_tiff_files_with_nans rasterio_read
      (generate_expected_filenames start_year end_year) tiff_files array_shape
      tiff_directory w = (w', Ok stacked_array)
    /\ shape stacked_array
       = (array_shape.1, array_shape.2, 12 * Z.to_nat (end_year - start_year + 1))
    /\ forall i j, i < array_shape.1 -> j < array_shape.2 ->
         getitem w' stacked_array i j (Z.to_nat (12 * (y - start_year) + (m - 1)))
         = match slot_source rasterio_read tiff_files tiff_directory
                   (monthly_filename y m) with
           | Some array => broadcast_pixel array i j
           | None => nan
           end.
Proof.
  intros Hfits Hy Hm.
  destruct (stack_run_fits rasterio_read _ tiff_files array_shape tiff_directory w Hfits)
    as (w' & Hrun & _ & _ & _ & Hcells).
  eexists _, _. split; [exact Hrun |]. split.
  - unfold shape, full_array. simpl. rewrite length_expected_filenames. reflexivity.
  - intros i j Hi Hj. rewrite Hcells; [| exact Hi | exact Hj |].
    + rewrite (expected_filenames_lookup _ _ _ _ Hy Hm). reflexivity.
    + rewrite length_expected_filenames. lia.
Qed.

Lemma stack_slot_of_month_witness :
  exists w' stacked_array,
    stack_tiff_files_with_nans example_month_files (generate_expected_filenames 2003 2004)
      example_listing (1, 2) "d" (World [] []) = (w', Ok stacked_array)
    /\ shape stacked_array = ((1, 2).1, (1, 2).2, 12 * Z.to_nat (2004 - 2003 + 1))
    /\ forall i j, i < (1, 2).1 -> j < (1, 2).2 ->
         getitem w' stacked_array i j (Z.to_nat (12 * (2004 - 2003) + (2 - 1)))
         = match slot_source example_month_files example_listing "d"
                   (monthly_filename 2004 2) with
           | Some array => broadcast_pixel array i j
           | None => nan
           end.
Proof.
  apply (stack_slot_of_month example_month_files example_listing (1, 2) "d" (World [] [])
           2003 2004 2004 2).
  - apply Forall_forall. intros f Hin. apply list_elem_of_In in Hin.
    revert f Hin. apply forallb_forall. vm_compute. reflexivity.
  - lia.
  - lia.
Defined.

Lemma monthly_early_failures_witness :
  create_monthly_3d_arrays example_month_files example_month_exists ["q.tif"] []
    2003 2004 "d" (World [] [])
  = (World [] (shape_error_line example_month_files "d" <$> ["q.tif"]),
     Throw FileNotFound)
  /\ create_monthly_3d_arrays example_month_files example_month_exists example_listing []
       2003 2001 "d" (World [] [])
     = (World [] [], Throw (NumPyError ValueError)).
Proof.
  split.
  - apply (proj1 (monthly_early_failures example_month_files example_month_exists
                    ["q.tif"] [] 2003 2004 "d" (World [] []))).
    repeat constructor. eexists. reflexivity.
  - apply (proj2 (monthly_early_failures example_month_files example_month_exists
                    example_listing [] 2003 2001 "d" (World [] [])) (World [] []) 1 2).
    + reflexivity.
    + lia.
Defined.
